(** * Hexa-Server: the authentication and routing core of [index.js]

    A shallow embedding of the Express application of [src/index.js] (and of
    its earlier variant without authentication, [src/unnamed/part_000]):
    the JWT middleware [authenticateJWT], the token endpoint, the route
    handlers over the two MongoDB collections, and the route table.

    The packages the handlers call ([jsonwebtoken], the MongoDB driver with
    its [ObjectId], Express and [cookie-parser]) are modelled as far as the
    handlers use them; each model says which call of the source it stands
    for.  The keyed hash of the tokens and the string-to-[ObjectId]
    conversion are parameters of the development. *)

From stdpp Require Import base option list strings gmap fin_maps.
From Stdlib Require Import ZArith Lia Ascii String.

Set Default Proof Using "Type".

Local Open Scope Z_scope.
Local Open Scope string_scope.

(** ** Values

    What a parsed JSON body holds, and what a stored document holds: JSON
    extended with the store's native identifier ([ObjectId], twelve bytes,
    kept as a number).  Numbers are the integers (seconds, counts); a
    number with a fractional part is not a value of the model. *)

Definition oid := N.

#[local] Unset Elimination Schemes.
Inductive value :=
  | VNull
  | VBool (b : bool)
  | VNum (n : Z)
  | VStr (s : string)
  | VOid (o : oid)
  | VArr (l : list value)
  | VObj (o : list (string * value)).
#[local] Set Elimination Schemes.

(** A JavaScript object used as a map from field names to values: a request
    body, a token payload, a stored document, a query filter. *)
Abbreviation object := (gmap string value).

Fixpoint value_eqb (a b : value) {struct a} : bool :=
  match a, b with
  | VNull, VNull => true
  | VBool x, VBool y => Bool.eqb x y
  | VNum x, VNum y => Z.eqb x y
  | VStr x, VStr y => String.eqb x y
  | VOid x, VOid y => N.eqb x y
  | VArr x, VArr y =>
      (fix go (l1 l2 : list value) : bool :=
         match l1, l2 with
         | [], [] => true
         | v1 :: r1, v2 :: r2 => value_eqb v1 v2 && go r1 r2
         | _, _ => false
         end) x y
  | VObj x, VObj y =>
      (fix go (l1 l2 : list (string * value)) : bool :=
         match l1, l2 with
         | [], [] => true
         | (k1, v1) :: r1, (k2, v2) :: r2 =>
             String.eqb k1 k2 && value_eqb v1 v2 && go r1 r2
         | _, _ => false
         end) x y
  | _, _ => false
  end.

Section value_induction.
Variable P : value -> Prop.
Hypothesis Hnull : P VNull.
Hypothesis Hbool : forall b, P (VBool b).
Hypothesis Hnum : forall n, P (VNum n).
Hypothesis Hstr : forall s, P (VStr s).
Hypothesis Hoid : forall o, P (VOid o).
Hypothesis Harr : forall l, Forall P l -> P (VArr l).
Hypothesis Hobj : forall o, Forall (fun kv => P (snd kv)) o -> P (VObj o).

Fixpoint value_nested_ind (v : value) : P v :=
  match v with
  | VNull => Hnull
  | VBool b => Hbool b
  | VNum n => Hnum n
  | VStr s => Hstr s
  | VOid o => Hoid o
  | VArr l =>
      Harr l ((fix go (l : list value) : Forall P l :=
                 match l with
                 | [] => @List.Forall_nil _ P
                 | x :: r => @List.Forall_cons _ P x r (value_nested_ind x) (go r)
                 end) l)
  | VObj o =>
      Hobj o ((fix go (l : list (string * value))
                 : Forall (fun kv => P (snd kv)) l :=
                 match l with
                 | [] => @List.Forall_nil _ _
                 | x :: r =>
                     @List.Forall_cons _ (fun kv => P (snd kv)) x r
                       (value_nested_ind (snd x)) (go r)
                 end) o)
  end.
End value_induction.

Lemma value_eqb_eq (a b : value) : value_eqb a b = true <-> a = b.
Proof.
  revert b. induction a as [| x | x | x | x | l IH | o IH] using value_nested_ind;
    intros [| y | y | y | y | l' | o']; simpl;
    try (split; [discriminate | congruence]); try tauto.
  - rewrite Bool.eqb_true_iff. split; congruence.
  - rewrite Z.eqb_eq. split; congruence.
  - rewrite String.eqb_eq. split; congruence.
  - rewrite N.eqb_eq. split; congruence.
  - revert l'. induction IH as [| v r Hv _ IHr]; intros [| v' r'];
      try (split; [discriminate | congruence]); try tauto.
    rewrite andb_true_iff, Hv, IHr. split.
    + intros [-> E]. congruence.
    + intros E. injection E as -> ->. auto.
  - revert o'. induction IH as [| [k v] r Hv _ IHr]; intros [| [k' v'] r'];
      try (split; [discriminate | congruence]); try tauto.
    simpl in Hv. rewrite !andb_true_iff, String.eqb_eq, Hv, IHr. split.
    + intros [[-> ->] E]. congruence.
    + intros E. injection E as -> -> ->. auto.
Qed.

#[global] Instance value_eq_dec : EqDecision value.
Proof.
  intros a b. destruct (value_eqb a b) eqn:E.
  - left. by apply value_eqb_eq.
  - right. intros H. apply value_eqb_eq in H. congruence.
Defined.

(** ** Errors and results

    The exceptions the handlers can meet: those [jsonwebtoken] raises or
    hands to its callback, the [BSONError] of [new ObjectId(id)] on a string
    it does not accept (carrying that string), and whatever the MongoDB
    driver reports for a failed call. *)

Inductive exn :=
  | Error (msg : string)
  | JsonWebTokenError (msg : string)
  | NotBeforeError (date : Z)
  | TokenExpiredError (expiredAt : Z)
  | BSONError (input : string)
  | MongoError (msg : string).

Inductive result (A : Type) :=
  | Ok (a : A)
  | Err (e : exn).
Arguments Ok {A} a.
Arguments Err {A} e.

Definition is_ok {A} (r : result A) : bool :=
  match r with Ok _ => true | Err _ => false end.

(** JavaScript truthiness of a string: every string but the empty one. *)
Definition truthy (s : string) : bool := negb (String.eqb s "").

Section Server.

(** The signature of a token: [hmac alg key (header, payload)] stands for
    the HMAC that [jws] computes under algorithm [alg] and key [key] over
    the encoded header and payload.  Nothing is assumed of it. *)
Context {tag : Type} `{EqDecision tag}.

(** ** Tokens (package [jsonwebtoken]) *)

Record jose_header := { alg : string; typ : option string }.

Variable hmac : string -> string -> jose_header * object -> tag.

(** A decoded token: header, payload and the third segment, [None] when it
    is empty. *)
Record jws := {
  jws_header : jose_header;
  jws_payload : object;
  jws_signature : option tag }.

(** A cookie value as the middleware reads it from [req.cookies]: the
    compact serialization of a token, or any other string, one that does
    not decode as [header.payload.signature]. *)
Inductive cookie_value :=
  | Compact (t : jws)
  | Raw (s : string).

(** [if (token)]: a serialized token is never the empty string. *)
Definition cookie_truthy (c : cookie_value) : bool :=
  match c with
  | Compact _ => true
  | Raw s => truthy s
  end.

(** [process.env.ACCESS_TOKEN_SECRET]: unset or a string; [!secret] holds
    of both the unset and the empty one. *)
Definition usable_key (secret : option string) : option string :=
  match secret with
  | Some k => if truthy k then Some k else None
  | None => None
  end.

Definition HS_ALGS : list string := ["HS256"; "HS384"; "HS512"].

Definition one_hour : Z := 3600.

(** [registered_claims_schema] of [sign]: [iat], [exp] and [nbf], when the
    payload has them, are numbers. *)
Definition claim_is_number (payload : object) (k : string) : bool :=
  match payload !! k with
  | None | Some (VNum _) => true
  | Some _ => false
  end.

(** [payload.iat || Math.floor(Date.now() / 1000)]. *)
Definition issue_timestamp (payload : object) (now : Z) : Z :=
  match payload !! "iat" with
  | Some (VNum n) => if Z.eqb n 0 then now else n
  | _ => now
  end.

(** The integers [n] for which the double-precision sum [n + 3600] is the
    integer sum. *)
Definition exact_sum (n : Z) : bool :=
  Z.leb (- 2 ^ 53) n && Z.leb n (2 ^ 53 - one_hour).

(** [Math.floor(iat + 3600)] as double arithmetic gives it for an [iat]
    outside that range.  Nothing is assumed of it. *)
Variable imprecise_sum : Z -> Z.

(** [timespan("1h", timestamp)]: one hour after the timestamp.  The clock
    of the server, [Math.floor(Date.now() / 1000)], is within the exact
    range; an [iat] that the payload brings need not be. *)
Definition expiry (payload : object) (now : Z) : Z :=
  match payload !! "iat" with
  | Some (VNum n) =>
      if Z.eqb n 0 then now + one_hour
      else if exact_sum n then n + one_hour
      else imprecise_sum n
  | _ => now + one_hour
  end.

(** [jwt.sign(payload, secret, { expiresIn: "1h" })] on an object payload,
    at clock [now] (seconds): the payload is copied, [iat] and [exp] are
    written into the copy, and the copy is signed under HS256. *)
Definition sign (payload : object) (secret : option string) (now : Z)
  : result cookie_value :=
  match usable_key secret with
  | None => Err (Error "secretOrPrivateKey must have a value")
  | Some key =>
      if negb (claim_is_number payload "iat") then
        Err (Error "iat should be a number of seconds")
      else if negb (claim_is_number payload "exp") then
        Err (Error "exp should be a number of seconds")
      else if negb (claim_is_number payload "nbf") then
        Err (Error "nbf should be a number of seconds")
      else if bool_decide (is_Some (payload !! "exp")) then
        Err (Error "Bad options.expiresIn option the payload already has an exp property.")
      else
        let timestamp := issue_timestamp payload now in
        let claims :=
          <["exp" := VNum (expiry payload now)]>
            (<["iat" := VNum timestamp]> payload) in
        let header := {| alg := "HS256"; typ := Some "JWT" |} in
        Ok (Compact {| jws_header := header;
                       jws_payload := claims;
                       jws_signature := Some (hmac "HS256" key (header, claims)) |})
  end.

(** The checks of [verify] on the decoded payload: [nbf], then [exp]. *)
Definition check_nbf (payload : object) (now : Z) : result unit :=
  match payload !! "nbf" with
  | None => Ok tt
  | Some (VNum nbf) =>
      if Z.ltb now nbf then Err (NotBeforeError nbf) else Ok tt
  | Some _ => Err (JsonWebTokenError "invalid nbf value")
  end.

Definition check_exp (payload : object) (now : Z) : result unit :=
  match payload !! "exp" with
  | None => Ok tt
  | Some (VNum exp) =>
      if Z.leb exp now then Err (TokenExpiredError exp) else Ok tt
  | Some _ => Err (JsonWebTokenError "invalid exp value")
  end.

(** [jwt.verify(token, secret, callback)] at clock [now]: the result is
    what the callback receives, [Err err] or [Ok payload]. *)
Definition verify (token : cookie_value) (secret : option string) (now : Z)
  : result object :=
  if negb (cookie_truthy token) then
    Err (JsonWebTokenError "jwt must be provided")
  else
    match token with
    | Raw _ => Err (JsonWebTokenError "jwt malformed")
    | Compact t =>
        match jws_signature t, usable_key secret with
        | None, Some _ => Err (JsonWebTokenError "jwt signature is required")
        | None, None =>
            Err (JsonWebTokenError
                   "please specify none in algorithms to verify unsigned tokens")
        | Some _, None =>
            Err (JsonWebTokenError "secret or public key must be provided")
        | Some sg, Some key =>
            let a := alg (jws_header t) in
            if negb (bool_decide (a ∈ HS_ALGS)) then
              Err (JsonWebTokenError "invalid algorithm")
            else if negb (bool_decide
                            (sg = hmac a key (jws_header t, jws_payload t))) then
              Err (JsonWebTokenError "invalid signature")
            else
              match check_nbf (jws_payload t) now with
              | Err e => Err e
              | Ok _ =>
                  match check_exp (jws_payload t) now with
                  | Err e => Err e
                  | Ok _ => Ok (jws_payload t)
                  end
              end
        end
    end.

(** ** Requests and responses (Express) *)

Inductive verb := GET | POST | PUT | PATCH | DELETE.

#[global] Instance verb_eq_dec : EqDecision verb.
Proof. solve_decision. Defined.

(** The request after [express.json()] and [cookieParser()] have run: the
    path split at its slashes; the query as the query parser leaves it, a
    string for a parameter given once, an array for one given several times
    and an object for a bracketed one ([email[$ne]=x]); a value per cookie;
    the parsed body; the route parameters the router fills in; and
    [req.user], which only [authenticateJWT] writes. *)
Record request := {
  req_method : verb;
  req_path : list string;
  req_query : object;
  req_cookies : gmap string cookie_value;
  req_body : object;
  req_params : gmap string string;
  req_user : option object }.

Definition set_user (req : request) (u : object) : request :=
  {| req_method := req_method req; req_path := req_path req;
     req_query := req_query req; req_cookies := req_cookies req;
     req_body := req_body req; req_params := req_params req;
     req_user := Some u |}.

Definition set_params (req : request) (ps : gmap string string) : request :=
  {| req_method := req_method req; req_path := req_path req;
     req_query := req_query req; req_cookies := req_cookies req;
     req_body := req_body req; req_params := ps;
     req_user := req_user req |}.

Definition set_cookies (req : request) (cs : gmap string cookie_value)
  : request :=
  {| req_method := req_method req; req_path := req_path req;
     req_query := req_query req; req_cookies := cs;
     req_body := req_body req; req_params := req_params req;
     req_user := req_user req |}.

(** The acknowledgments of the driver, sent as they are. *)
Record InsertOneResult := { insert_acknowledged : bool; insertedId : value }.
Record DeleteResult := { delete_acknowledged : bool; deletedCount : nat }.

Inductive body :=
  | SendText (s : string)
  | SendObject (o : object)
  | SendArray (docs : list object)
  | SendInserted (r : InsertOneResult)
  | SendDeleted (r : DeleteResult)
  | SendFailure (message : string) (error : exn)
  | SendErrorPage (error : exn).

(** The options of [res.cookie]. *)
Record cookie_options := { httpOnly : bool; secure : bool; sameSite : string }.

Record response := {
  status : Z;
  set_cookie : list (string * cookie_value * cookie_options);
  sent : body }.

Definition send (code : Z) (b : body) : response :=
  {| status := code; set_cookie := []; sent := b |}.

(** [res.sendStatus(code)]: the status with its reason phrase as the body. *)
Definition sendStatus (code : Z) : response :=
  send code
    (SendText (if Z.eqb code 401 then "Unauthorized"
               else if Z.eqb code 403 then "Forbidden"
               else "")).

(** The process environment and the two things a call reads from the
    world: the clock, in seconds, and the identifier the driver generates
    for a document inserted without one. *)
Record environment := {
  ACCESS_TOKEN_SECRET : option string;
  clock : Z;
  generated_id : oid }.

(** What a middleware does with a request: answer it, or call [next()] with
    the request as it has left it. *)
Inductive passage :=
  | Answered (r : response)
  | Next (req : request).

(** ** The JWT middleware ([index.js], lines 45-59) *)

Definition authenticateJWT (env : environment) (req : request) : passage :=
  match req_cookies req !! "token" with
  | Some token =>
      if cookie_truthy token then
        match verify token (ACCESS_TOKEN_SECRET env) (clock env) with
        | Err _ => Answered (sendStatus 403)
        | Ok user => Next (set_user req user)
        end
      else Answered (sendStatus 401)
  | None => Answered (sendStatus 401)
  end.

(** ** The store (MongoDB driver)

    A collection is the list of its documents in insertion order; a
    document is an object whose ["_id"] field the store keeps unique.
    [outage], when set, is the fault every driver call fails with: what the
    [catch] blocks of the handlers are there for.  A call can fail before
    it reaches the server, or after the server has carried it out, when
    only the reply is lost. *)

Inductive fault :=
  | Unreachable (e : exn)
  | ReplyLost (e : exn).

Definition fault_error (f : fault) : exn :=
  match f with
  | Unreachable e | ReplyLost e => e
  end.

Record database := {
  servicesCollection : list object;
  bookingCollection : list object;
  outage : option fault }.

Definition with_booking (db : database) (c : list object) : database :=
  {| servicesCollection := servicesCollection db;
     bookingCollection := c;
     outage := outage db |}.

(** [await] on a driver call that reads. *)
Definition await {A : Type} (db : database) (x : A) : result A :=
  match outage db with
  | Some f => Err (fault_error f)
  | None => Ok x
  end.

(** [await] on a driver call that writes the bookings: [call] is what the
    server makes of it, the new collection with an acknowledgment, or a
    refusal.  When only the reply is lost, the write has happened. *)
Definition await_write {A : Type} (db : database)
  (call : result (list object * A)) : result A * database :=
  match outage db, call with
  | None, Ok (c, a) => (Ok a, with_booking db c)
  | None, Err e => (Err e, db)
  | Some (Unreachable e), _ => (Err e, db)
  | Some (ReplyLost e), Ok (c, _) => (Err e, with_booking db c)
  | Some (ReplyLost e), Err _ => (Err e, db)
  end.

(** The condition [{ k: operand }] of a filter, for an operand that is not
    an object: the field equals the operand, or it is an array that has the
    operand among its elements; a missing field equals [null]. *)
Definition field_matches (operand : value) (field : option value) : bool :=
  match field with
  | None => bool_decide (operand = VNull)
  | Some (VArr l) =>
      bool_decide (VArr l = operand) || bool_decide (operand ∈ l)
  | Some v => bool_decide (v = operand)
  end.

(** A filter is the conjunction of its conditions; [{}] holds of every
    document.  [matches] is for a filter none of whose operands is an
    object, as is [{ _id: new ObjectId(id) }]. *)
Definition matches (query : object) (doc : object) : bool :=
  bool_decide (map_Forall (fun k v => field_matches v (doc !! k) = true) query).

(** What the server makes of a condition whose operand is an object, be it
    an operator expression ([{ $ne: "x" }]) or a document to compare the
    field with: a test on the field, or the refusal of an expression it
    does not accept.  Nothing is assumed of it. *)
Variable object_condition : list (string * value) -> result (option value -> bool).

Definition is_object (v : value) : bool :=
  match v with
  | VObj _ => true
  | _ => false
  end.

Definition condition (operand : value) : result (option value -> bool) :=
  match operand with
  | VObj fields => object_condition fields
  | _ => Ok (field_matches operand)
  end.

Fixpoint conditions (l : list (string * value)) : result (object -> bool) :=
  match l with
  | [] => Ok (fun _ => true)
  | (k, operand) :: rest =>
      match condition operand with
      | Err e => Err e
      | Ok test =>
          match conditions rest with
          | Err e => Err e
          | Ok tests => Ok (fun doc : object => test (doc !! k) && tests doc)
          end
      end
  end.

(** [collection.find(query).toArray()], for any filter: the documents that
    pass every condition, in the order of the collection, or the refusal of
    the filter. *)
Definition find (query : object) (c : list object) : result (list object) :=
  match conditions (map_to_list query) with
  | Ok test => Ok (List.filter test c)
  | Err e => Err e
  end.

(** [collection.findOne(filter)]: the first match, or [null]. *)
Definition findOne (query : object) (c : list object) : option object :=
  List.find (matches query) c.

(** [collection.deleteOne(query)]: the first match is removed. *)
Fixpoint deleteOne (query : object) (c : list object) : list object * nat :=
  match c with
  | [] => ([], 0%nat)
  | doc :: rest =>
      if matches query doc then (rest, 1%nat)
      else let '(rest', n) := deleteOne query rest in (doc :: rest', n)
  end.

Definition is_array (field : option value) : bool :=
  match field with
  | Some (VArr _) => true
  | _ => false
  end.

(** [collection.insertOne(doc)]: a document without ["_id"] gets the
    generated identifier; an array as ["_id"], or an ["_id"] already in the
    collection, is refused. *)
Definition insertOne (gen : oid) (newItem : object) (c : list object)
  : result (list object * InsertOneResult) :=
  let doc :=
    match newItem !! "_id" with
    | Some _ => newItem
    | None => <["_id" := VOid gen]> newItem
    end in
  if is_array (doc !! "_id") then
    Err (MongoError "The _id value cannot be of type array")
  else if existsb (fun d => bool_decide (d !! "_id" = doc !! "_id")) c then
    Err (MongoError "E11000 duplicate key error")
  else
    Ok ((c ++ [doc])%list,
        {| insert_acknowledged := true;
           insertedId := default VNull (doc !! "_id") |}).

(** The strings [new ObjectId(id)] accepts, with the identifier each stands
    for; on any other string it throws. *)
Variable parse_oid : string -> option oid.

(** [new ObjectId(id)]; without an argument the constructor generates an
    identifier. *)
Definition new_ObjectId (env : environment) (id : option string) : result oid :=
  match id with
  | None => Ok (generated_id env)
  | Some s =>
      match parse_oid s with
      | Some o => Ok o
      | None => Err (BSONError s)
      end
  end.

(** ** Route handlers *)

(** How the call of a handler ends: with a response, with an exception
    thrown out of a synchronous handler, or with the promise of an [async]
    handler rejected before it wrote any response.  [Unrouted] is a request
    no route matches. *)
Inductive outcome :=
  | Responded (r : response)
  | Threw (e : exn)
  | Rejected (e : exn)
  | Unrouted.

Definition handler := environment -> request -> database -> outcome * database.
Definition middleware := environment -> request -> passage.

(** [POST /jwt-auth] ([index.js], lines 84-96). *)
Definition jwt_auth : handler := fun env req db =>
  let user := req_body req in
  match sign user (ACCESS_TOKEN_SECRET env) (clock env) with
  | Err e => (Threw e, db)
  | Ok token =>
      (Responded
         {| status := 200;
            set_cookie :=
              [("token", token,
                {| httpOnly := true; secure := true; sameSite := "none" |})];
            sent := SendObject {[ "success" := VBool true ]} |}, db)
  end.

(** [GET /api/v1/services]. *)
Definition get_services : handler := fun env req db =>
  match await db (find ∅ (servicesCollection db)) with
  | Ok (Ok result) => (Responded (send 200 (SendArray result)), db)
  | Ok (Err error) | Err error =>
      (Responded (send 500 (SendFailure "Error fetching services" error)), db)
  end.

(** [GET /api/v1/services/:id]: the filter is built before the [try]. *)
Definition get_service_by_id : handler := fun env req db =>
  let id := req_params req !! "id" in
  match new_ObjectId env id with
  | Err e => (Rejected e, db)
  | Ok o =>
      let filter : object := {[ "_id" := VOid o ]} in
      match await db (findOne filter (servicesCollection db)) with
      | Ok (Some service) => (Responded (send 200 (SendObject service)), db)
      | Ok None =>
          (Responded
             (send 404 (SendObject {[ "message" := VStr "Service not found" ]})),
           db)
      | Err error =>
          (Responded (send 500 (SendFailure "Error fetching the service" error)),
           db)
      end
  end.

(** JavaScript truthiness of a value. *)
Definition value_truthy (v : value) : bool :=
  match v with
  | VNull => false
  | VBool b => b
  | VNum n => negb (Z.eqb n 0)
  | VStr s => truthy s
  | VOid _ | VArr _ | VObj _ => true
  end.

(** The filter of [GET /api/v1/booking]: [{}], replaced by
    [{ email: req.query.email }] when that parameter is truthy; the
    parameter goes into the filter as the query parser left it. *)
Definition booking_query (req : request) : object :=
  match req_query req !! "email" with
  | Some email => if value_truthy email then {[ "email" := email ]} else ∅
  | None => ∅
  end.

(** [GET /api/v1/booking]. *)
Definition get_booking : handler := fun env req db =>
  let query := booking_query req in
  match await db (find query (bookingCollection db)) with
  | Ok (Ok result) => (Responded (send 200 (SendArray result)), db)
  | Ok (Err error) | Err error =>
      (Responded (send 500 (SendFailure "Error fetching booking data" error)),
       db)
  end.

(** [POST /api/v1/booking]; the two files differ in the message of the
    [catch] block. *)
Definition post_booking (message : string) : handler := fun env req db =>
  let newItem := req_body req in
  match
    await_write db (insertOne (generated_id env) newItem (bookingCollection db))
  with
  | (Ok result, db') => (Responded (send 201 (SendInserted result)), db')
  | (Err error, db') => (Responded (send 500 (SendFailure message error)), db')
  end.

(** [DELETE /api/v1/booking/:id]: the identifier is converted inside the
    [try]. *)
Definition delete_booking : handler := fun env req db =>
  let id := req_params req !! "id" in
  match new_ObjectId env id with
  | Err error =>
      (Responded (send 500 (SendFailure "Error deleting booking" error)), db)
  | Ok o =>
      let query : object := {[ "_id" := VOid o ]} in
      match await_write db (Ok (deleteOne query (bookingCollection db))) with
      | (Ok n, db') =>
          (Responded
             (send 200
                (SendDeleted {| delete_acknowledged := true;
                                deletedCount := n |})),
           db')
      | (Err error, db') =>
          (Responded (send 500 (SendFailure "Error deleting booking" error)),
           db')
      end
  end.

(** [GET /]. *)
Definition root : handler := fun env req db =>
  (Responded (send 200 (SendText "Server is running")), db).

(** ** Routing (Express) *)

(** A segment of a route path: a literal, or a named parameter ([:id]). *)
Inductive segment :=
  | Lit (s : string)
  | Param (name : string).

(** Route literals match without regard to letter case (the [case
    sensitive routing] setting is off by default). *)
Definition lower_ascii (c : ascii) : ascii :=
  let n := Ascii.N_of_ascii c in
  if (N.leb 65 n && N.leb n 90)%bool then Ascii.ascii_of_N (n + 32) else c.

Fixpoint lower (s : string) : string :=
  match s with
  | EmptyString => EmptyString
  | String c r => String (lower_ascii c) (lower r)
  end.

Fixpoint match_path (pattern : list segment) (path : list string)
  : option (gmap string string) :=
  match pattern, path with
  | [], [] => Some ∅
  | Lit s :: pattern', x :: path' =>
      if String.eqb (lower s) (lower x) then match_path pattern' path' else None
  | Param name :: pattern', x :: path' =>
      if truthy x then insert name x <$> match_path pattern' path' else None
  | _, _ => None
  end.

(** A registered route: [app.METHOD(path, ...guards, handler)]. *)
Record route := {
  route_method : verb;
  route_path : list segment;
  route_guards : list middleware;
  route_handler : handler }.

Fixpoint run_guards (guards : list middleware) (env : environment)
  (req : request) : passage :=
  match guards with
  | [] => Next req
  | g :: rest =>
      match g env req with
      | Answered r => Answered r
      | Next req' => run_guards rest env req'
      end
  end.

(** A route runs its guards in turn; its handler runs when each of them
    has called [next()]. *)
Definition run_route (guards : list middleware) (h : handler)
  : handler := fun env req db =>
  match run_guards guards env req with
  | Answered r => (Responded r, db)
  | Next req' => h env req' db
  end.

(** An exception thrown out of a synchronous handler goes to the default
    error handler, which answers 500 with the page of the error; a rejected
    promise does not reach it. *)
Definition default_error_handler (o : outcome * database)
  : outcome * database :=
  match o with
  | (Threw e, db) => (Responded (send 500 (SendErrorPage e)), db)
  | _ => o
  end.

(** The first route, in registration order, whose method and path match. *)
Fixpoint dispatch (app : list route) (env : environment) (req : request)
  (db : database) : outcome * database :=
  match app with
  | [] => (Unrouted, db)
  | rt :: rest =>
      if bool_decide (route_method rt = req_method req) then
        match match_path (route_path rt) (req_path req) with
        | Some ps =>
            default_error_handler
              (run_route (route_guards rt) (route_handler rt) env
                 (set_params req ps) db)
        | None => dispatch rest env req db
        end
      else dispatch rest env req db
  end.

Definition api_v1 (rest : list segment) : list segment :=
  Lit "api" :: Lit "v1" :: rest.

(** The routes of [index.js]: [GET /] is registered when the module loads,
    the others once the client has connected. *)
Definition index_js : list route :=
  [ {| route_method := GET; route_path := [];
       route_guards := []; route_handler := root |};
    {| route_method := POST; route_path := [Lit "jwt-auth"];
       route_guards := []; route_handler := jwt_auth |};
    {| route_method := GET; route_path := api_v1 [Lit "services"];
       route_guards := []; route_handler := get_services |};
    {| route_method := GET; route_path := api_v1 [Lit "services"; Param "id"];
       route_guards := []; route_handler := get_service_by_id |};
    {| route_method := GET; route_path := api_v1 [Lit "booking"];
       route_guards := []; route_handler := get_booking |};
    {| route_method := POST; route_path := api_v1 [Lit "booking"];
       route_guards := [];
       route_handler := post_booking "Error adding booking" |};
    {| route_method := DELETE; route_path := api_v1 [Lit "booking"; Param "id"];
       route_guards := []; route_handler := delete_booking |} ].

(** The routes of the earlier file ([src/unnamed/part_000]): no token
    endpoint, no middleware, no delete. *)
Definition part_000 : list route :=
  [ {| route_method := GET; route_path := [];
       route_guards := []; route_handler := root |};
    {| route_method := GET; route_path := api_v1 [Lit "services"];
       route_guards := []; route_handler := get_services |};
    {| route_method := GET; route_path := api_v1 [Lit "services"; Param "id"];
       route_guards := []; route_handler := get_service_by_id |};
    {| route_method := GET; route_path := api_v1 [Lit "booking"];
       route_guards := []; route_handler := get_booking |};
    {| route_method := POST; route_path := api_v1 [Lit "booking"];
       route_guards := [];
       route_handler := post_booking "Error adding item" |} ].

(** The request has the method and a path of the route [m pattern]. *)
Definition addresses (m : verb) (pattern : list segment) (req : request)
  : bool :=
  bool_decide (req_method req = m)
  && bool_decide (is_Some (match_path pattern (req_path req))).

(** A handler that reads nothing of the cookies. *)
Definition ignores_cookies (h : handler) : Prop :=
  forall env req cookies db, h env (set_cookies req cookies) db = h env req db.

(** ** The invariant of a collection

    Every document has an ["_id"] that is not an array, and no two
    documents share one. *)
Definition ids (c : list object) : list (option value) :=
  List.map (fun d : object => d !! "_id") c.

Definition has_id (d : object) : Prop :=
  is_Some (d !! "_id") /\ is_array (d !! "_id") = false.

Definition wf_collection (c : list object) : Prop :=
  Forall has_id c /\ NoDup (ids c).

(** ** Expired and tampered tokens *)

(** The token carries an expiry that has passed at clock [now]. *)
Definition expired (token : cookie_value) (now : Z) : bool :=
  match token with
  | Compact t =>
      match jws_payload t !! "exp" with
      | Some (VNum e) => Z.leb e now
      | _ => false
      end
  | Raw _ => false
  end.

(** The token decodes and its signature is the one the server's secret
    gives for its header and payload. *)
Definition signature_valid (token : cookie_value) (secret : option string)
  : bool :=
  match token, usable_key secret with
  | Compact t, Some key =>
      bool_decide
        (jws_signature t
         = Some (hmac (alg (jws_header t)) key (jws_header t, jws_payload t)))
  | _, _ => false
  end.

(** The documents a response carries. *)
Definition returned_documents (o : outcome * database) : list object :=
  match fst o with
  | Responded r =>
      match sent r with
      | SendArray docs => docs
      | _ => []
      end
  | _ => []
  end.

(** ** What the token endpoint issues *)

(** The payloads [sign] accepts under [expiresIn]: [iat] and [nbf] are
    numbers when present, and there is no [exp]. *)
Definition signable (payload : object) : bool :=
  claim_is_number payload "iat" && claim_is_number payload "nbf"
  && bool_decide (payload !! "exp" = None).

(** The payload of the token issued for [payload] at clock [now]. *)
Definition issued_claims (payload : object) (now : Z) : object :=
  <["exp" := VNum (expiry payload now)]>
    (<["iat" := VNum (issue_timestamp payload now)]> payload).

(** The token issued for [payload] under [key] at clock [now]. *)
Definition issued_token (key : string) (payload : object) (now : Z)
  : cookie_value :=
  let header := {| alg := "HS256"; typ := Some "JWT" |} in
  Compact {| jws_header := header;
             jws_payload := issued_claims payload now;
             jws_signature :=
               Some (hmac "HS256" key (header, issued_claims payload now)) |}.

(** The options of the [token] cookie ([index.js], lines 90-94). *)
Definition token_cookie_options : cookie_options :=
  {| httpOnly := true; secure := true; sameSite := "none" |}.

(** A relation between the store before and after a request that every
    handler of [app] keeps. *)
Definition handlers_keep (R : database -> database -> Prop) (app : list route)
  : Prop :=
  Forall (fun rt => forall env req db,
                      R db (snd (route_handler rt env req db))) app.

End Server.

Arguments jws : clear implicits.
Arguments cookie_value : clear implicits.
Arguments request : clear implicits.

(** ** Instances used in the examples

    An identifier parser: the twenty-four hexadecimal digits of an
    [ObjectId].  A keyed hash: the ideal one, whose tag is the triple it
    was computed from.  The conditions with an object as operand: the two
    operator expressions the examples use, [{ $eq: v }] and [{ $ne: v }],
    every other object being refused in this instance.  The sum outside the
    exact range: the integer sum, no example having an [iat] there. *)

Definition hex_digit (c : ascii) : option N :=
  let n := Ascii.N_of_ascii c in
  if (N.leb 48 n && N.leb n 57)%bool then Some (n - 48)%N
  else if (N.leb 97 n && N.leb n 102)%bool then Some (n - 87)%N
  else if (N.leb 65 n && N.leb n 70)%bool then Some (n - 55)%N
  else None.

Fixpoint hex_value (s : string) (acc : N) : option N :=
  match s with
  | EmptyString => Some acc
  | String c r =>
      match hex_digit c with
      | Some d => hex_value r (16 * acc + d)%N
      | None => None
      end
  end.

Definition hex24 (s : string) : option oid :=
  if Nat.eqb (String.length s) 24 then hex_value s 0%N else None.

#[global] Instance jose_header_eq_dec : EqDecision jose_header.
Proof. solve_decision. Defined.

Definition ideal_tag : Type := string * string * (jose_header * object).

Definition ideal_hmac (a key : string) (m : jose_header * object) : ideal_tag :=
  (a, key, m).

Definition operators0 (fields : list (string * value))
  : result (option value -> bool) :=
  match fields with
  | [(op, v)] =>
      if String.eqb op "$eq" then Ok (field_matches v)
      else if String.eqb op "$ne" then Ok (fun field => negb (field_matches v field))
      else Err (MongoError "unknown operator")
  | _ => Err (MongoError "unknown operator")
  end.

Definition sum0 (n : Z) : Z := n + one_hour.

(** Inputs of the examples. *)
Definition env0 : environment :=
  {| ACCESS_TOKEN_SECRET := Some "s3cret"; clock := 1000; generated_id := 7%N |}.

(** The same an hour later, when a token issued at clock 1000 expires. *)
Definition env_late : environment :=
  {| ACCESS_TOKEN_SECRET := Some "s3cret"; clock := 4600; generated_id := 7%N |}.

Definition request0 (m : verb) (path : list string) : request ideal_tag :=
  {| req_method := m; req_path := path; req_query := ∅; req_cookies := ∅;
     req_body := ∅; req_params := ∅; req_user := None |}.

Definition with_query (req : request ideal_tag) (q : object)
  : request ideal_tag :=
  {| req_method := req_method req; req_path := req_path req;
     req_query := q; req_cookies := req_cookies req;
     req_body := req_body req; req_params := req_params req;
     req_user := req_user req |}.

Definition claims0 : object := {[ "email" := VStr "a@x.com" ]}.

(** The token issued for [claims0] at clock 1000, and the same token with
    its payload altered and its signature kept. *)
Definition token0 : cookie_value ideal_tag :=
  match sign ideal_hmac sum0 claims0 (Some "s3cret") 1000 with
  | Ok token => token
  | Err _ => Raw ""
  end.

Definition tampered0 : cookie_value ideal_tag :=
  match token0 with
  | Compact t =>
      Compact {| jws_header := jws_header t;
                 jws_payload := <["email" := VStr "root@x.com"]> (jws_payload t);
                 jws_signature := jws_signature t |}
  | Raw s => Raw s
  end.

(** What verifying [token0] returns. *)
Definition payload0 : object :=
  <["exp" := VNum 4600]> (<["iat" := VNum 1000]> claims0).

Definition booking_path : list string := ["api"; "v1"; "booking"].
Definition services_path : list string := ["api"; "v1"; "services"].

(** A request carrying [c] as its [token] cookie. *)
Definition with_token (c : cookie_value ideal_tag) : request ideal_tag :=
  set_cookies (request0 GET booking_path) {[ "token" := c ]}.

(** A request whose route parameter [id] is [id]. *)
Definition with_id (m : verb) (id : string) : request ideal_tag :=
  set_params (request0 m []) {[ "id" := id ]}.

(** The identifiers of the documents of [db0], as path identifiers. *)
Definition id_service5 : string := "000000000000000000000005".
Definition id_booking2 : string := "000000000000000000000002".
Definition id_nowhere : string := "0000000000000000000000ff".

Definition service5 : object :=
  {[ "_id" := VOid 5%N; "name" := VStr "Engine repair" ]}.
Definition booking1 : object := {[ "_id" := VOid 1%N; "email" := VStr "" ]}.
Definition booking2 : object :=
  {[ "_id" := VOid 2%N; "email" := VStr "a@x.com" ]}.

(** A listing request with the given [email] parameter. *)
Definition with_email (email : string) : request ideal_tag :=
  with_query (request0 GET booking_path) {[ "email" := VStr email ]}.

(** A listing request with [email[$ne]=zzz], as the extended query parser
    delivers it. *)
Definition with_email_ne : request ideal_tag :=
  with_query (request0 GET booking_path)
    {[ "email" := VObj [("$ne", VStr "zzz")] ]}.

Definition db0 : database :=
  {| servicesCollection :=
       [ {[ "_id" := VOid 5%N; "name" := VStr "Engine repair" ]} ];
     bookingCollection :=
       [ {[ "_id" := VOid 1%N; "email" := VStr "" ]};
         {[ "_id" := VOid 2%N; "email" := VStr "a@x.com" ]} ];
     outage := None |}.

(** A login with the body [claims0], and the response to it at [env0]. *)
Definition login0 : request ideal_tag :=
  {| req_method := POST; req_path := ["jwt-auth"]; req_query := ∅;
     req_cookies := ∅; req_body := claims0; req_params := ∅;
     req_user := None |}.

Definition logged_in0 : response :=
  {| status := 200;
     set_cookie := [("token", token0, token_cookie_options)];
     sent := SendObject {[ "success" := VBool true ]} |}.

(** A login whose body brings an [exp], which [jwt.sign] refuses. *)
Definition login_with_exp : request ideal_tag :=
  {| req_method := POST; req_path := ["jwt-auth"]; req_query := ∅;
     req_cookies := ∅; req_body := {[ "exp" := VNum 5 ]}; req_params := ∅;
     req_user := None |}.

(** A login whose body brings an [iat] of its own, long past. *)
Definition claims_backdated : object :=
  {[ "email" := VStr "a@x.com"; "iat" := VNum 10 ]}.

Definition login_backdated : request ideal_tag :=
  {| req_method := POST; req_path := ["jwt-auth"]; req_query := ∅;
     req_cookies := ∅; req_body := claims_backdated; req_params := ∅;
     req_user := None |}.

Definition token_backdated : cookie_value ideal_tag :=
  issued_token ideal_hmac sum0 "s3cret" claims_backdated 4600.

(** The clock between issue and expiry of [token0]. *)
Definition env_soon : environment :=
  {| ACCESS_TOKEN_SECRET := Some "s3cret"; clock := 2000; generated_id := 7%N |}.

(** The store [db0] behind a driver that fails. *)
Definition db_down : database :=
  {| servicesCollection := servicesCollection db0;
     bookingCollection := bookingCollection db0;
     outage := Some (Unreachable (MongoError "connection closed")) |}.

(** A booking to create, the request that creates it at [env0], where the
    driver generates the identifier 7, and that identifier as a path
    identifier. *)
Definition booking_new : object :=
  {[ "email" := VStr "b@x.com"; "service" := VStr "Engine repair" ]}.

Definition post0 : request ideal_tag :=
  {| req_method := POST; req_path := booking_path; req_query := ∅;
     req_cookies := ∅; req_body := booking_new; req_params := ∅;
     req_user := None |}.

Definition id_generated : string := "000000000000000000000007".

(** The booking as stored. *)
Definition booking_stored : object := <["_id" := VOid 7%N]> booking_new.

(** A store with a booking that was created with an ["_id"] of its own,
    and a request that brings the same ["_id"] again. *)
Definition booking_keyed : object :=
  {[ "_id" := VStr "k1"; "email" := VStr "c@x.com" ]}.

Definition db_keyed : database :=
  {| servicesCollection := servicesCollection db0;
     bookingCollection := [booking1; booking_keyed];
     outage := None |}.

Definition post_duplicate : request ideal_tag :=
  {| req_method := POST; req_path := booking_path; req_query := ∅;
     req_cookies := ∅;
     req_body := {[ "_id" := VStr "k1"; "email" := VStr "d@x.com" ]};
     req_params := ∅; req_user := None |}.

(** A booking created with the text of an identifier as its ["_id"]: the
    request, the document stored and the store after it. *)
Definition id_text : string := "000000000000000000000009".

Definition booking_text_id : object :=
  {[ "_id" := VStr id_text; "email" := VStr "e@x.com" ]}.

Definition post_text_id : request ideal_tag :=
  {| req_method := POST; req_path := booking_path; req_query := ∅;
     req_cookies := ∅; req_body := booking_text_id; req_params := ∅;
     req_user := None |}.

Definition db_text_id : database :=
  {| servicesCollection := servicesCollection db0;
     bookingCollection := [booking1; booking2; booking_text_id];
     outage := None |}.

(** * Properties *)

Lemma truthy_true (s : string) : truthy s = true <-> s <> "".
Proof.
  unfold truthy. rewrite negb_true_iff, <- not_true_iff_false, String.eqb_eq.
  tauto.
Qed.

Section Token_properties.

Context {tag : Type} `{EqDecision tag}.
Variable hmac : string -> string -> jose_header * object -> tag.
Variable imprecise_sum : Z -> Z.

Lemma cookie_truthy_false (c : cookie_value tag) :
  cookie_truthy c = false <-> c = Raw "".
Proof.
  destruct c as [t | s]; simpl; [split; discriminate |].
  unfold truthy. rewrite negb_false_iff, String.eqb_eq. split; congruence.
Qed.

Lemma verify_ok_truthy (c : cookie_value tag) secret now user :
  verify hmac c secret now = Ok user -> cookie_truthy c = true.
Proof.
  unfold verify. destruct (cookie_truthy c); [reflexivity | discriminate].
Qed.

(** *** The middleware *)

Lemma authenticateJWT_401 (env : environment) (req : request tag) :
  req_cookies req !! "token" = None \/ req_cookies req !! "token" = Some (Raw "") ->
  authenticateJWT hmac env req = Answered (sendStatus 401).
Proof. unfold authenticateJWT. intros [-> | ->]; reflexivity. Qed.

Lemma authenticateJWT_403 (env : environment) (req : request tag) t e :
  req_cookies req !! "token" = Some t ->
  t <> Raw "" ->
  verify hmac t (ACCESS_TOKEN_SECRET env) (clock env) = Err e ->
  authenticateJWT hmac env req = Answered (sendStatus 403).
Proof.
  unfold authenticateJWT. intros -> Hne Hv.
  destruct (cookie_truthy t) eqn:Ht.
  - by rewrite Hv.
  - by apply cookie_truthy_false in Ht.
Qed.

Lemma authenticateJWT_next (env : environment) (req : request tag) t user :
  req_cookies req !! "token" = Some t ->
  verify hmac t (ACCESS_TOKEN_SECRET env) (clock env) = Ok user ->
  authenticateJWT hmac env req = Next (set_user req user).
Proof.
  unfold authenticateJWT. intros -> Hv.
  by rewrite (verify_ok_truthy _ _ _ _ Hv), Hv.
Qed.

(** A route behind one guard: the guard's answer is the route's, and the
    handler runs exactly on the request the guard passes on. *)
Lemma run_route_one_guard (g : middleware) (h : handler) env
  (req : request tag) db :
  run_route [g] h env req db =
    match g env req with
    | Answered r => (Responded r, db)
    | Next req' => h env req' db
    end.
Proof. unfold run_route, run_guards. by destruct (g env req). Qed.

(** C1, as the code has it.  For every request, every handler [h] behind
    the middleware and every store: when the [token] cookie is absent or
    empty, the middleware answers 401 and [h] does not run; when the cookie
    is a non-empty string that [verify] refuses, it answers 403 and [h]
    does not run; when [verify] accepts it, the decoded claims become
    [req.user] and [h] runs on that request. *)
Theorem authenticateJWT_gate (env : environment) (req : request tag)
  (h : handler) (db : database) :
  let token := req_cookies req !! "token" in
  let guarded := run_route [authenticateJWT hmac] h env req db in
  ((token = None \/ token = Some (Raw "")) ->
     authenticateJWT hmac env req = Answered (sendStatus 401)
     /\ guarded = (Responded (sendStatus 401), db))
  /\ (forall t e,
        token = Some t -> t <> Raw "" ->
        verify hmac t (ACCESS_TOKEN_SECRET env) (clock env) = Err e ->
        authenticateJWT hmac env req = Answered (sendStatus 403)
        /\ guarded = (Responded (sendStatus 403), db))
  /\ (forall t user,
        token = Some t ->
        verify hmac t (ACCESS_TOKEN_SECRET env) (clock env) = Ok user ->
        authenticateJWT hmac env req = Next (set_user req user)
        /\ guarded = h env (set_user req user) db).
Proof.
  cbn zeta. rewrite run_route_one_guard. split; [| split].
  - intros Hc. by rewrite (authenticateJWT_401 _ _ Hc).
  - intros t e Hc Hne Hv. by rewrite (authenticateJWT_403 _ _ _ _ Hc Hne Hv).
  - intros t user Hc Hv. by rewrite (authenticateJWT_next _ _ _ _ Hc Hv).
Qed.

(** *** Tokens *)

Lemma usable_key_Some (key : string) :
  key <> "" -> usable_key (Some key) = Some key.
Proof. intros Hk. unfold usable_key. by rewrite (proj2 (truthy_true key) Hk). Qed.

(** C3, as the code has it.  For every claims object without [iat], [exp]
    and [nbf] fields, signed under a non-empty secret at time [t]: the token
    is issued, and verifying it at any time before [t] plus one hour
    succeeds and returns the claims with two fields added, [iat] (the time
    of issue) and [exp] (one hour later); every other field is returned as
    it was given. *)
Theorem sign_verify_roundtrip (claims : object) (key : string) (t t' : Z) :
  key <> "" ->
  claims !! "iat" = None ->
  claims !! "exp" = None ->
  claims !! "nbf" = None ->
  t' < t + one_hour ->
  let returned : object :=
    <["exp" := VNum (t + one_hour)]> (<["iat" := VNum t]> claims) in
  exists token,
    sign hmac imprecise_sum claims (Some key) t = Ok token
    /\ verify hmac token (Some key) t' = Ok returned
    /\ (forall k, k <> "iat" -> k <> "exp" -> returned !! k = claims !! k).
Proof.
  intros Hk Hiat Hexp Hnbf Ht returned.
  assert (expiry imprecise_sum claims t = t + one_hour) as Hexpiry
    by (unfold expiry; by rewrite Hiat).
  unfold sign, claim_is_number, issue_timestamp.
  rewrite Hexpiry, (usable_key_Some _ Hk), Hiat, Hexp, Hnbf. simpl.
  eexists. split; [reflexivity |]. split.
  - unfold verify, cookie_truthy.
    cbn [negb jws_signature jws_header jws_payload alg].
    rewrite (usable_key_Some _ Hk).
    rewrite (bool_decide_eq_true_2 ("HS256" ∈ HS_ALGS)) by (by left).
    rewrite bool_decide_eq_true_2 by reflexivity. cbn [negb].
    unfold check_nbf, check_exp.
    rewrite !lookup_insert_ne, Hnbf by done.
    rewrite lookup_insert_eq.
    destruct (Z.leb_spec (t + one_hour) t'); [lia | reflexivity].
  - intros k Hk1 Hk2. subst returned.
    by rewrite !lookup_insert_ne.
Qed.

Lemma verify_expired (token : cookie_value tag) secret now :
  expired token now = true ->
  is_ok (verify hmac token secret now) = false.
Proof.
  unfold expired, verify. destruct token as [t | s]; [| discriminate]. simpl.
  destruct (jws_payload t !! "exp") as [[| | e | | | |] |] eqn:He;
    try discriminate.
  intros Hle.
  destruct (jws_signature t), (usable_key secret); try reflexivity.
  repeat (match goal with |- context [if ?b then _ else _] => destruct b end;
          try reflexivity).
  destruct (check_nbf (jws_payload t) now); [| reflexivity].
  unfold check_exp. by rewrite He, Hle.
Qed.

Lemma verify_signature_invalid (token : cookie_value tag) secret now :
  signature_valid hmac token secret = false ->
  is_ok (verify hmac token secret now) = false.
Proof.
  unfold signature_valid, verify. destruct token as [t | s].
  - simpl. destruct (jws_signature t) as [sg |], (usable_key secret) as [k |];
      try reflexivity.
    intros Hsg. apply bool_decide_eq_false in Hsg.
    destruct (negb (bool_decide (alg (jws_header t) ∈ HS_ALGS)));
      [reflexivity |].
    rewrite bool_decide_eq_false_2; [reflexivity | congruence].
  - intros _. by destruct (negb (cookie_truthy (Raw s))).
Qed.

(** C4, as the code has it.  For every request whose [token] cookie is a
    non-empty value that has expired or whose signature is not the one the
    server's secret gives (a tampered token, or a string that is no token):
    [verify] fails, the middleware answers 403, and no handler behind it
    runs. *)
Theorem bad_token_rejected (env : environment) (req : request tag)
  (token : cookie_value tag) (h : handler) (db : database) :
  req_cookies req !! "token" = Some token ->
  token <> Raw "" ->
  expired token (clock env) = true
  \/ signature_valid hmac token (ACCESS_TOKEN_SECRET env) = false ->
  is_ok (verify hmac token (ACCESS_TOKEN_SECRET env) (clock env)) = false
  /\ authenticateJWT hmac env req = Answered (sendStatus 403)
  /\ run_route [authenticateJWT hmac] h env req db
     = (Responded (sendStatus 403), db).
Proof.
  intros Hc Hne Hbad.
  assert (is_ok (verify hmac token (ACCESS_TOKEN_SECRET env) (clock env)) = false)
    as Hv.
  { destruct Hbad; [by apply verify_expired | by apply verify_signature_invalid]. }
  destruct (verify hmac token (ACCESS_TOKEN_SECRET env) (clock env))
    as [u | e] eqn:E; [discriminate |].
  pose proof (authenticateJWT_403 _ _ _ _ Hc Hne E) as Hmw.
  by rewrite run_route_one_guard, Hmw.
Qed.

End Token_properties.

Section Store_properties.

Context {tag : Type}.
Variable object_condition : list (string * value) -> result (option value -> bool).
Variable parse_oid : string -> option oid.

(** *** The store *)

Lemma matches_empty (doc : object) : matches ∅ doc = true.
Proof. unfold matches. apply bool_decide_eq_true_2, map_Forall_empty. Qed.

Lemma matches_singleton (k : string) (v : value) (doc : object) :
  matches {[ k := v ]} doc = field_matches v (doc !! k).
Proof.
  unfold matches. apply eq_true_iff_eq.
  by rewrite bool_decide_eq_true, map_Forall_singleton.
Qed.

Lemma filter_all (c : list object) : List.filter (fun _ => true) c = c.
Proof. induction c as [| d c IH]; cbn [List.filter]; congruence. Qed.

Lemma find_all (c : list object) : find object_condition ∅ c = Ok c.
Proof using Type.
  unfold find. rewrite map_to_list_empty. cbn [conditions].
  by rewrite filter_all.
Qed.

(** A filter with one condition whose operand is not an object selects by
    [field_matches]. *)
Lemma find_plain (k : string) (v : value) (c : list object) :
  is_object v = false ->
  find object_condition {[ k := v ]} c
  = Ok (List.filter (fun doc : object => field_matches v (doc !! k)) c).
Proof using Type.
  intros Hv. unfold find. rewrite map_to_list_singleton. cbn [conditions].
  assert (condition object_condition v = Ok (field_matches v)) as ->
    by (by destruct v).
  f_equal. apply filter_ext. intros doc. apply andb_true_r.
Qed.

(** Whatever the filter, what [find] returns is in the collection. *)
Lemma find_sublist (query : object) (c l : list object) (doc : object) :
  find object_condition query c = Ok l -> doc ∈ l -> doc ∈ c.
Proof using Type.
  unfold find. destruct (conditions _ _) as [test | e]; [| discriminate].
  intros [= <-]. rewrite !list_elem_of_In, filter_In. tauto.
Qed.

Lemma elem_of_filter_list (test : object -> bool) (doc : object)
  (c : list object) :
  doc ∈ List.filter test c <-> doc ∈ c /\ test doc = true.
Proof. by rewrite !list_elem_of_In, filter_In. Qed.

(** On a string field the condition [{ k: "e" }] is equality of strings. *)
Lemma field_matches_string (e s : string) :
  field_matches (VStr e) (Some (VStr s)) = true <-> s = e.
Proof. cbn [field_matches]. rewrite bool_decide_eq_true. split; congruence. Qed.

Lemma field_matches_id (o : oid) (f : option value) :
  is_array f = false ->
  field_matches (VOid o) f = true <-> f = Some (VOid o).
Proof.
  destruct f as [[| b | n | s | o' | l | fields] |];
    cbn [field_matches is_array]; intros Harr;
    try discriminate; rewrite bool_decide_eq_true; split; congruence.
Qed.

Lemma matches_id (o : oid) (doc : object) :
  has_id doc ->
  matches {[ "_id" := VOid o ]} doc = true <-> doc !! "_id" = Some (VOid o).
Proof. intros [_ Harr]. rewrite matches_singleton. by apply field_matches_id. Qed.

Lemma wf_collection_cons (d : object) (c : list object) :
  wf_collection (d :: c) <->
  has_id d /\ ((d !! "_id") ∉ ids c) /\ wf_collection c.
Proof.
  unfold wf_collection. cbn [ids List.map]. rewrite Forall_cons, NoDup_cons. tauto.
Qed.

Lemma elem_of_ids (d : object) (c : list object) :
  d ∈ c -> d !! "_id" ∈ ids c.
Proof.
  induction c as [| x c IH]; cbn [ids List.map]; intros Hd.
  - by apply elem_of_nil in Hd.
  - apply elem_of_cons in Hd as [-> | Hd]; [left | right; auto].
Qed.

Lemma matches_absent (o : oid) (c : list object) :
  Forall has_id c ->
  (forall d, d ∈ c -> d !! "_id" <> Some (VOid o)) ->
  Forall (fun d => matches {[ "_id" := VOid o ]} d = false) c.
Proof.
  intros Hid Habs. rewrite Forall_forall in Hid. apply Forall_forall.
  intros d Hd. apply not_true_is_false. rewrite (matches_id _ _ (Hid _ Hd)).
  by apply Habs.
Qed.

Lemma findOne_present (o : oid) (doc : object) (c : list object) :
  wf_collection c ->
  doc ∈ c ->
  doc !! "_id" = Some (VOid o) ->
  findOne {[ "_id" := VOid o ]} c = Some doc.
Proof.
  unfold findOne. induction c as [| d c IH]; intros Hwf Hin Hdoc.
  - by apply elem_of_nil in Hin.
  - apply wf_collection_cons in Hwf as (Hd & Hfresh & Hwf). cbn [List.find].
    apply elem_of_cons in Hin as [<- | Hin].
    + by rewrite (proj2 (matches_id o doc Hd) Hdoc).
    + destruct (matches {[ "_id" := VOid o ]} d) eqn:Hm; [| by apply IH].
      apply (matches_id o d Hd) in Hm. exfalso. apply Hfresh.
      rewrite Hm, <- Hdoc. by apply elem_of_ids.
Qed.

Lemma findOne_absent (o : oid) (c : list object) :
  Forall has_id c ->
  (forall d, d ∈ c -> d !! "_id" <> Some (VOid o)) ->
  findOne {[ "_id" := VOid o ]} c = None.
Proof.
  intros Hid Habs. pose proof (matches_absent o c Hid Habs) as Hno.
  clear Hid Habs. unfold findOne.
  induction Hno as [| d c Hd _ IH]; cbn [List.find]; [done |].
  by rewrite Hd.
Qed.

Lemma deleteOne_absent (o : oid) (c : list object) :
  Forall has_id c ->
  (forall d, d ∈ c -> d !! "_id" <> Some (VOid o)) ->
  deleteOne {[ "_id" := VOid o ]} c = (c, 0%nat).
Proof.
  intros Hid Habs. pose proof (matches_absent o c Hid Habs) as Hno.
  clear Hid Habs.
  induction Hno as [| d c Hd _ IH]; cbn [deleteOne]; [done |].
  by rewrite Hd, IH.
Qed.

(** Deleting a stored identifier removes one document, keeps the
    invariant, and leaves no document with that identifier. *)
Lemma deleteOne_present (o : oid) (doc : object) (c : list object) :
  wf_collection c ->
  doc ∈ c ->
  doc !! "_id" = Some (VOid o) ->
  exists c',
    deleteOne {[ "_id" := VOid o ]} c = (c', 1%nat)
    /\ wf_collection c'
    /\ (forall d, d ∈ c' -> d ∈ c /\ d !! "_id" <> Some (VOid o)).
Proof.
  induction c as [| d c IH]; intros Hwf Hin Hdoc.
  - by apply elem_of_nil in Hin.
  - apply wf_collection_cons in Hwf as (Hd & Hfresh & Hwf). cbn [deleteOne].
    destruct (matches {[ "_id" := VOid o ]} d) eqn:Hm.
    + exists c. split; [done |]. split; [done |].
      intros d' Hd'. split; [by right |].
      apply (matches_id o d Hd) in Hm. intros Heq. apply Hfresh.
      rewrite Hm, <- Heq. by apply elem_of_ids.
    + apply elem_of_cons in Hin as [<- | Hin].
      { apply (matches_id o doc Hd) in Hdoc. congruence. }
      destruct (IH Hwf Hin Hdoc) as (c' & -> & Hwf' & Hgone).
      exists (d :: c'). split; [done |]. split.
      * apply wf_collection_cons. split; [done |]. split; [| done].
        intros Hmem. apply Hfresh. clear -Hmem Hgone.
        assert (forall x, x ∈ c' -> x ∈ c) as Hsub by (intros x Hx; by apply Hgone).
        clear Hgone. induction c' as [| x c' IHc]; cbn [ids List.map] in Hmem.
        { by apply elem_of_nil in Hmem. }
        apply elem_of_cons in Hmem as [-> | Hmem].
        -- apply elem_of_ids, Hsub. by left.
        -- apply IHc; [done |]. intros y Hy. apply Hsub. by right.
      * intros d' Hd'. apply elem_of_cons in Hd' as [-> | Hd'].
        -- split; [by left |]. intros Heq.
           apply (matches_id o d Hd) in Heq. congruence.
        -- destruct (Hgone _ Hd'). split; [by right | done].
Qed.

(** Inserting keeps the invariant. *)
Lemma insertOne_wf (gen : oid) (newItem : object) (c c' : list object)
  (r : InsertOneResult) :
  wf_collection c ->
  insertOne gen newItem c = Ok (c', r) ->
  wf_collection c'.
Proof.
  unfold insertOne.
  set (doc := match newItem !! "_id" with
              | Some _ => newItem
              | None => <["_id" := VOid gen]> newItem
              end).
  intros [Hid Hnd].
  destruct (is_array (doc !! "_id")) eqn:Harr; [discriminate |].
  destruct (existsb _ c) eqn:Hex; [discriminate |].
  intros [= <- _]. split.
  - apply Forall_app. split; [done |].
    apply Forall_cons_2; [| apply Forall_nil_2]. split; [| done].
    subst doc. destruct (newItem !! "_id") as [v |] eqn:E.
    + rewrite E. by exists v.
    + rewrite lookup_insert_eq. by eexists.
  - unfold ids. rewrite List.map_app. apply NoDup_app.
    split; [done |]. split; [| apply NoDup_singleton].
    intros x Hx Hx'. apply list_elem_of_singleton in Hx' as ->.
    apply list_elem_of_In, in_map_iff in Hx as (d & Hd & Hin).
    apply not_true_iff_false in Hex. apply Hex, existsb_exists.
    exists d. split; [done |]. by apply bool_decide_eq_true_2.
Qed.

(** *** The writing handlers on a store that answers *)

Lemma delete_booking_answering (env : environment) (req : request tag)
  (db : database) (id : string) (o : oid) :
  req_params req !! "id" = Some id ->
  parse_oid id = Some o ->
  outage db = None ->
  delete_booking parse_oid env req db
  = (Responded
       (send 200
          (SendDeleted
             {| delete_acknowledged := true;
                deletedCount :=
                  snd (deleteOne {[ "_id" := VOid o ]} (bookingCollection db)) |})),
     with_booking db
       (fst (deleteOne {[ "_id" := VOid o ]} (bookingCollection db)))).
Proof.
  intros Hid Hparse Hup.
  unfold delete_booking, new_ObjectId, await_write. rewrite Hid, Hparse, Hup.
  by destruct (deleteOne _ _).
Qed.

Lemma post_booking_answering (message : string) (env : environment)
  (req : request tag) (db : database) :
  outage db = None ->
  post_booking message env req db
  = match insertOne (generated_id env) (req_body req) (bookingCollection db) with
    | Ok (c, result) =>
        (Responded (send 201 (SendInserted result)), with_booking db c)
    | Err error => (Responded (send 500 (SendFailure message error)), db)
    end.
Proof.
  intros Hup. unfold post_booking, await_write. rewrite Hup.
  by destruct (insertOne _ _ _) as [[c r] | e].
Qed.

(** *** Handlers on identifiers *)

(** C5, evaluated on the code.  For every path identifier that
    [new ObjectId] does not accept: [DELETE /api/v1/booking/:id] answers 500
    with the [BSONError] in the body, and [GET /api/v1/services/:id], which
    converts the identifier before its [try], writes no response at all: the
    promise of the handler is rejected with that error. *)
Theorem invalid_id_outcomes (env : environment) (req : request tag)
  (db : database) (id : string) :
  req_params req !! "id" = Some id ->
  parse_oid id = None ->
  delete_booking parse_oid env req db
  = (Responded (send 500 (SendFailure "Error deleting booking" (BSONError id))),
     db)
  /\ get_service_by_id parse_oid env req db = (Rejected (BSONError id), db).
Proof.
  intros Hid Hparse.
  unfold delete_booking, get_service_by_id, new_ObjectId.
  by rewrite Hid, Hparse.
Qed.

(** C7.  For a path identifier that converts to the identifier [o], on a
    store that answers: when a service document with identifier [o] is in
    the collection, the response is 200 with that document; when none is,
    the response is 404 with the body [{ message: "Service not found" }]. *)
Theorem get_service_by_id_found_or_404 (env : environment) (req : request tag)
  (db : database) (id : string) (o : oid) :
  req_params req !! "id" = Some id ->
  parse_oid id = Some o ->
  outage db = None ->
  wf_collection (servicesCollection db) ->
  (forall service,
      service ∈ servicesCollection db ->
      service !! "_id" = Some (VOid o) ->
      get_service_by_id parse_oid env req db
      = (Responded (send 200 (SendObject service)), db))
  /\ ((forall service,
         service ∈ servicesCollection db -> service !! "_id" <> Some (VOid o)) ->
      get_service_by_id parse_oid env req db
      = (Responded
           (send 404 (SendObject {[ "message" := VStr "Service not found" ]})),
         db)).
Proof.
  intros Hid Hparse Hup Hwf.
  unfold get_service_by_id, new_ObjectId, await. rewrite Hid, Hparse, Hup.
  split.
  - intros service Hin Hdoc. by rewrite (findOne_present o service _ Hwf Hin Hdoc).
  - intros Habs. by rewrite (findOne_absent o _ (proj1 Hwf) Habs).
Qed.

(** C8, as the code has it.  For a path identifier that converts to the
    [ObjectId] under which a booking is stored, on a store that answers:
    the first delete responds 200 with [deletedCount] 1, and a second
    delete, on the store the first one left, responds 200 with
    [deletedCount] 0 and changes nothing. *)
Theorem delete_booking_twice (env env' : environment) (req : request tag)
  (db : database) (id : string) (o : oid) (doc : object) :
  req_params req !! "id" = Some id ->
  parse_oid id = Some o ->
  outage db = None ->
  wf_collection (bookingCollection db) ->
  doc ∈ bookingCollection db ->
  doc !! "_id" = Some (VOid o) ->
  exists db1,
    delete_booking parse_oid env req db
    = (Responded
         (send 200 (SendDeleted {| delete_acknowledged := true;
                                   deletedCount := 1 |})), db1)
    /\ delete_booking parse_oid env' req db1
       = (Responded
            (send 200 (SendDeleted {| delete_acknowledged := true;
                                      deletedCount := 0 |})), db1).
Proof.
  intros Hid Hparse Hup Hwf Hin Hdoc.
  destruct (deleteOne_present o doc _ Hwf Hin Hdoc) as (c' & Hdel & Hwf' & Hgone).
  exists (with_booking db c').
  rewrite (delete_booking_answering env req db id o Hid Hparse Hup), Hdel.
  split; [reflexivity |].
  rewrite (delete_booking_answering env' req (with_booking db c') id o
             Hid Hparse Hup).
  cbn [with_booking bookingCollection].
  rewrite (deleteOne_absent o c' (proj1 Hwf')).
  - reflexivity.
  - intros d Hd. by apply Hgone.
Qed.

(** *** Listing bookings *)

Lemma booking_query_absent (req : request tag) :
  req_query req !! "email" = None
  \/ req_query req !! "email" = Some (VStr "") ->
  booking_query req = ∅.
Proof. unfold booking_query. intros [-> | ->]; reflexivity. Qed.

Lemma booking_query_truthy (req : request tag) (v : value) :
  req_query req !! "email" = Some v ->
  value_truthy v = true ->
  booking_query req = {[ "email" := v ]}.
Proof. unfold booking_query. by intros -> ->. Qed.

Lemma booking_query_email (req : request tag) (email : string) :
  req_query req !! "email" = Some (VStr email) ->
  email <> "" ->
  booking_query req = {[ "email" := VStr email ]}.
Proof.
  intros Hq Hne. apply booking_query_truthy; [done |].
  by apply truthy_true.
Qed.

Lemma get_booking_answer (env : environment) (req : request tag)
  (db : database) (l : list object) :
  outage db = None ->
  find object_condition (booking_query req) (bookingCollection db) = Ok l ->
  get_booking object_condition env req db
  = (Responded (send 200 (SendArray l)), db).
Proof using Type.
  intros Hup Hfind. unfold get_booking, await. by rewrite Hup, Hfind.
Qed.

(** C6, as the code has it.  On a store that answers: without an [email]
    parameter the filter is [{}] and the response is 200 with every booking.
    An [email] parameter that is truthy goes into the filter as the query
    parser left it, and nothing else does.  When it is a non-empty string,
    the response is 200 with the bookings the filter [{ email: value }]
    selects, in the order of the collection, and a booking whose [email] is
    a string is selected exactly when that string is the parameter,
    character for character. *)
Theorem get_booking_filter (env : environment) (req : request tag)
  (db : database) :
  outage db = None ->
  (req_query req !! "email" = None ->
     booking_query req = ∅
     /\ get_booking object_condition env req db
        = (Responded (send 200 (SendArray (bookingCollection db))), db))
  /\ (forall v,
        req_query req !! "email" = Some v -> value_truthy v = true ->
        booking_query req = {[ "email" := v ]})
  /\ (forall email,
        req_query req !! "email" = Some (VStr email) -> email <> "" ->
        get_booking object_condition env req db
        = (Responded
             (send 200
                (SendArray
                   (List.filter
                      (fun doc : object =>
                         field_matches (VStr email) (doc !! "email"))
                      (bookingCollection db)))), db)
        /\ (forall doc s,
              doc ∈ bookingCollection db ->
              doc !! "email" = Some (VStr s) ->
              doc ∈ returned_documents
                      (get_booking object_condition env req db)
              <-> s = email)).
Proof using Type.
  intros Hup. split; [| split].
  - intros Hq.
    assert (booking_query req = ∅) as Hempty
      by (apply booking_query_absent; by left).
    split; [done |].
    apply (get_booking_answer _ _ _ _ Hup). rewrite Hempty. apply find_all.
  - intros v Hq Hv. by apply booking_query_truthy.
  - intros email Hq Hne.
    assert (get_booking object_condition env req db
            = (Responded
                 (send 200
                    (SendArray
                       (List.filter
                          (fun doc : object =>
                             field_matches (VStr email) (doc !! "email"))
                          (bookingCollection db)))), db)) as Hanswer.
    { apply (get_booking_answer _ _ _ _ Hup).
      rewrite (booking_query_email _ _ Hq Hne). by apply find_plain. }
    split; [done |].
    intros doc s Hin Hs. rewrite Hanswer.
    cbn [returned_documents fst sent send].
    rewrite elem_of_filter_list, Hs, field_matches_string.
    split; [by intros [_ ?] | by intros ->].
Qed.

(** C9.  For every store and every two requests, one without an [email]
    parameter and one with any value of it: each document in the response
    to the second is in the response to the first. *)
Theorem get_booking_all_superset (env env' : environment)
  (req req' : request tag) (db : database) :
  req_query req !! "email" = None ->
  returned_documents (get_booking object_condition env' req' db)
  ⊆ returned_documents (get_booking object_condition env req db).
Proof using Type.
  intros Hq. unfold get_booking, await.
  destruct (outage db) as [f |]; [done |].
  rewrite (booking_query_absent req) by (by left). rewrite find_all.
  destruct (find object_condition (booking_query req') (bookingCollection db))
    as [l | e] eqn:Hfind; cbn [returned_documents fst sent send].
  - intros doc Hdoc. by apply (find_sublist _ _ _ _ Hfind).
  - intros doc Hdoc. by apply elem_of_nil in Hdoc.
Qed.

(** C10.  A request whose [email] parameter is the empty string gets the
    filter [{}] and the response of a request without the parameter: on a
    store that answers, every booking, whatever its [email]. *)
Theorem get_booking_empty_email (env : environment) (req : request tag)
  (db : database) :
  req_query req !! "email" = Some (VStr "") ->
  booking_query req = ∅
  /\ (forall env' (req' : request tag),
        req_query req' !! "email" = None ->
        get_booking object_condition env req db
        = get_booking object_condition env' req' db)
  /\ (outage db = None ->
      get_booking object_condition env req db
      = (Responded (send 200 (SendArray (bookingCollection db))), db)).
Proof using Type.
  intros Hq.
  assert (booking_query req = ∅) as Hempty
    by (apply booking_query_absent; by right).
  split; [done |]. split.
  - intros env' req' Hq'. unfold get_booking.
    rewrite Hempty, (booking_query_absent req') by (by left). reflexivity.
  - intros Hup. apply (get_booking_answer _ _ _ _ Hup).
    rewrite Hempty. apply find_all.
Qed.

End Store_properties.

Section Route_properties.

Context {tag : Type}.
Variable hmac : string -> string -> jose_header * object -> tag.
Variable imprecise_sum : Z -> Z.
Variable object_condition : list (string * value) -> result (option value -> bool).
Variable parse_oid : string -> option oid.

(** *** The route table *)

Lemma dispatch_ignores_cookies (app : list (@route tag)) :
  Forall (fun rt => route_guards rt = [] /\ ignores_cookies (route_handler rt))
    app ->
  forall env req cookies db,
    dispatch app env (set_cookies req cookies) db = dispatch app env req db.
Proof.
  intros Happ env req cookies db.
  induction Happ as [| rt app [Hg Hh] _ IH]; cbn [dispatch]; [done |].
  change (req_method (set_cookies req cookies)) with (req_method req).
  change (req_path (set_cookies req cookies)) with (req_path req).
  destruct (bool_decide (route_method rt = req_method req)); [| done].
  destruct (match_path (route_path rt) (req_path req)) as [ps |]; [| done].
  rewrite Hg. unfold run_route. cbn [run_guards]. f_equal.
  apply (Hh env (set_params req ps) cookies db).
Qed.

(** The handlers of the services and of the bookings throw no exception:
    they answer, or their promise is rejected. *)
Lemma store_handlers_do_not_throw (env : environment) (req : request tag)
  (db : database) :
  default_error_handler (get_services object_condition env req db)
  = get_services object_condition env req db
  /\ default_error_handler (get_service_by_id parse_oid env req db)
     = get_service_by_id parse_oid env req db
  /\ default_error_handler (get_booking object_condition env req db)
     = get_booking object_condition env req db
  /\ (forall message,
        default_error_handler (post_booking message env req db)
        = post_booking message env req db)
  /\ default_error_handler (delete_booking parse_oid env req db)
     = delete_booking parse_oid env req db.
Proof.
  unfold get_services, get_service_by_id, get_booking, post_booking,
    delete_booking.
  repeat split; intros; repeat case_match; reflexivity.
Qed.

Lemma index_js_unguarded :
  Forall (fun rt : @route tag =>
            route_guards rt = [] /\ ignores_cookies (route_handler rt))
    (index_js hmac imprecise_sum object_condition parse_oid).
Proof.
  unfold index_js. repeat apply Forall_cons_2; try apply Forall_nil_2;
    (split; [reflexivity |]); intros env req cookies db; reflexivity.
Qed.

(** C2.  In [index.js] no route carries a guard, so [authenticateJWT] is on
    none of them; the answer to any request, and the store it leaves, do not
    depend on the cookies of the request; and a request to one of the five
    services and booking endpoints goes straight to the handler of that
    endpoint. *)
Theorem no_route_requires_token :
  Forall (fun rt : @route tag => route_guards rt = [])
    (index_js hmac imprecise_sum object_condition parse_oid)
  /\ (forall env (req : request tag) cookies db,
        dispatch (index_js hmac imprecise_sum object_condition parse_oid)
          env (set_cookies req cookies) db
        = dispatch (index_js hmac imprecise_sum object_condition parse_oid)
            env req db)
  /\ (forall env (req : request tag) db,
        let answer :=
          dispatch (index_js hmac imprecise_sum object_condition parse_oid)
            env req db in
        (req_method req = GET -> req_path req = ["api"; "v1"; "services"] ->
           answer = get_services object_condition env (set_params req ∅) db)
        /\ (forall id, req_method req = GET ->
              req_path req = ["api"; "v1"; "services"; id] -> id <> "" ->
              answer
              = get_service_by_id parse_oid env
                  (set_params req {[ "id" := id ]}) db)
        /\ (req_method req = GET -> req_path req = ["api"; "v1"; "booking"] ->
              answer = get_booking object_condition env (set_params req ∅) db)
        /\ (req_method req = POST -> req_path req = ["api"; "v1"; "booking"] ->
              answer
              = post_booking "Error adding booking" env (set_params req ∅) db)
        /\ (forall id, req_method req = DELETE ->
              req_path req = ["api"; "v1"; "booking"; id] -> id <> "" ->
              answer
              = delete_booking parse_oid env
                  (set_params req {[ "id" := id ]}) db)).
Proof.
  split; [| split].
  - eapply Forall_impl; [apply index_js_unguarded |]. by intros rt [Hg _].
  - apply dispatch_ignores_cookies, index_js_unguarded.
  - intros env req db answer. subst answer.
    unfold index_js, api_v1.
    cbn [dispatch route_method route_path route_guards route_handler].
    repeat split.
    + intros -> ->.
      etransitivity; [| apply (store_handlers_do_not_throw env _ db)].
      reflexivity.
    + intros id -> -> Hid%truthy_true.
      etransitivity; [| apply (store_handlers_do_not_throw env _ db)].
      cbn. rewrite Hid. reflexivity.
    + intros -> ->.
      etransitivity; [| apply (store_handlers_do_not_throw env _ db)].
      reflexivity.
    + intros -> ->.
      etransitivity; [| apply (store_handlers_do_not_throw env _ db)].
      reflexivity.
    + intros id -> -> Hid%truthy_true.
      etransitivity; [| apply (store_handlers_do_not_throw env _ db)].
      cbn. rewrite Hid. reflexivity.
Qed.

(** The earlier file answers every [GET] request as [index.js] does: its
    handlers for the services and for the listing of bookings are the same
    definitions. *)
Lemma part_000_agrees_on_GET (env : environment) (req : request tag)
  (db : database) :
  req_method req = GET ->
  dispatch (part_000 object_condition parse_oid) env req db
  = dispatch (index_js hmac imprecise_sum object_condition parse_oid) env req db.
Proof.
  intros Hm. unfold part_000, index_js.
  cbn [dispatch route_method route_path route_guards route_handler].
  rewrite Hm.
  rewrite !(bool_decide_eq_true_2 (GET = GET)) by done.
  rewrite !(bool_decide_eq_false_2 (POST = GET)) by done.
  rewrite (bool_decide_eq_false_2 (DELETE = GET)) by done.
  reflexivity.
Qed.

End Route_properties.

(** * The properties on concrete requests

    The store [db0], the secret and clock of [env0], the ideal keyed hash
    and the twenty-four digit identifiers. *)

Ltac by_compute := apply (bool_decide_unpack _); vm_compute; exact I.

Lemma db0_wf :
  wf_collection (servicesCollection db0) /\ wf_collection (bookingCollection db0).
Proof. unfold wf_collection, has_id. split; by_compute. Qed.

Lemma token0_verifies :
  verify ideal_hmac token0 (ACCESS_TOKEN_SECRET env0) (clock env0) = Ok payload0.
Proof. vm_compute. reflexivity. Qed.

(** C1 as written fails on an empty cookie: the cookie is present and does
    not verify, and the answer is 401, not 403. *)
Lemma empty_cookie_is_answered_401 :
  req_cookies (with_token (Raw "")) !! "token" = Some (Raw "")
  /\ verify ideal_hmac (Raw "") (ACCESS_TOKEN_SECRET env0) (clock env0)
     = Err (JsonWebTokenError "jwt must be provided")
  /\ authenticateJWT ideal_hmac env0 (with_token (Raw ""))
     = Answered (sendStatus 401)
  /\ status (@sendStatus ideal_tag 401) <> 403.
Proof. repeat split; try (vm_compute; reflexivity). vm_compute. discriminate. Qed.

(** The three branches of the middleware, on requests to a guarded route
    whose handler is the listing of bookings. *)
Lemma authenticateJWT_gate_witness :
  run_route [authenticateJWT ideal_hmac] (get_booking operators0) env0
    (request0 GET booking_path) db0
  = (Responded (sendStatus 401), db0)
  /\ run_route [authenticateJWT ideal_hmac] (get_booking operators0) env0
       (with_token (Raw "abc")) db0
     = (Responded (sendStatus 403), db0)
  /\ run_route [authenticateJWT ideal_hmac] (get_booking operators0) env0
       (with_token token0) db0
     = get_booking operators0 env0 (set_user (with_token token0) payload0) db0.
Proof.
  split; [| split].
  - apply (authenticateJWT_gate ideal_hmac env0 (request0 GET booking_path)
             (get_booking operators0) db0).
    left. vm_compute. reflexivity.
  - apply (authenticateJWT_gate ideal_hmac env0 (with_token (Raw "abc"))
             (get_booking operators0) db0)
      with (t := Raw "abc") (e := JsonWebTokenError "jwt malformed").
    + vm_compute. reflexivity.
    + discriminate.
    + vm_compute. reflexivity.
  - apply (authenticateJWT_gate ideal_hmac env0 (with_token token0)
             (get_booking operators0) db0) with (t := token0).
    + vm_compute. reflexivity.
    + exact token0_verifies.
Defined.

(** C3 as written fails: the claims [{ email: "a@x.com" }], issued at clock
    1000 and verified at clock 2000, come back with [iat] and [exp] added. *)
Lemma roundtrip_adds_iat_and_exp :
  sign ideal_hmac sum0 claims0 (Some "s3cret") 1000 = Ok token0
  /\ verify ideal_hmac token0 (Some "s3cret") 2000 = Ok payload0
  /\ payload0 <> claims0
  /\ payload0 !! "iat" = Some (VNum 1000)
  /\ payload0 !! "exp" = Some (VNum 4600)
  /\ claims0 !! "iat" = None
  /\ claims0 !! "exp" = None.
Proof.
  repeat split; try (vm_compute; reflexivity).
  intros Heq. apply (f_equal (fun m : object => m !! "iat")) in Heq.
  vm_compute in Heq. discriminate.
Qed.

Lemma sign_verify_roundtrip_witness :
  ("s3cret" <> ""
   /\ claims0 !! "iat" = None
   /\ claims0 !! "exp" = None
   /\ claims0 !! "nbf" = None
   /\ 2000 < 1000 + one_hour)
  /\ exists token,
       sign ideal_hmac sum0 claims0 (Some "s3cret") 1000 = Ok token
       /\ verify ideal_hmac token (Some "s3cret") 2000
          = Ok (<["exp" := VNum (1000 + one_hour)]>
                  (<["iat" := VNum 1000]> claims0))
       /\ (forall k, k <> "iat" -> k <> "exp" ->
             (<["exp" := VNum (1000 + one_hour)]>
                (<["iat" := VNum 1000]> claims0)) !! k = claims0 !! k).
Proof.
  assert ("s3cret" <> "") as Hk by discriminate.
  assert (claims0 !! "iat" = None) as Hiat by (vm_compute; reflexivity).
  assert (claims0 !! "exp" = None) as Hexp by (vm_compute; reflexivity).
  assert (claims0 !! "nbf" = None) as Hnbf by (vm_compute; reflexivity).
  assert (2000 < 1000 + one_hour) as Ht by (unfold one_hour; lia).
  split; [done |].
  exact (sign_verify_roundtrip ideal_hmac sum0 claims0 "s3cret" 1000 2000
           Hk Hiat Hexp Hnbf Ht).
Defined.

(** C4 as written fails on the empty string: it is no token, its signature
    is not valid and [verify] refuses it, yet a request carrying it is
    answered 401, not 403. *)
Lemma empty_token_is_answered_401 :
  signature_valid ideal_hmac (Raw "") (ACCESS_TOKEN_SECRET env0) = false
  /\ is_ok (verify ideal_hmac (Raw "") (ACCESS_TOKEN_SECRET env0) (clock env0))
     = false
  /\ run_route [authenticateJWT ideal_hmac] (get_booking operators0) env0
       (with_token (Raw "")) db0
     = (Responded (sendStatus 401), db0)
  /\ @sendStatus ideal_tag 401 <> sendStatus 403.
Proof. repeat split; try (vm_compute; reflexivity). discriminate. Qed.

Lemma bad_token_rejected_witness :
  (req_cookies (with_token token0) !! "token" = Some token0
   /\ token0 <> Raw ""
   /\ expired token0 (clock env_late) = true)
  /\ (req_cookies (with_token tampered0) !! "token" = Some tampered0
      /\ tampered0 <> Raw ""
      /\ signature_valid ideal_hmac tampered0 (ACCESS_TOKEN_SECRET env0) = false)
  /\ run_route [authenticateJWT ideal_hmac] (get_booking operators0) env_late
       (with_token token0) db0
     = (Responded (sendStatus 403), db0)
  /\ run_route [authenticateJWT ideal_hmac] (get_booking operators0) env0
       (with_token tampered0) db0
     = (Responded (sendStatus 403), db0).
Proof.
  assert (req_cookies (with_token token0) !! "token" = Some token0) as Hc
    by (vm_compute; reflexivity).
  assert (token0 <> Raw "") as Hne by (vm_compute; discriminate).
  assert (expired token0 (clock env_late) = true) as Hexp
    by (vm_compute; reflexivity).
  assert (req_cookies (with_token tampered0) !! "token" = Some tampered0) as Hc'
    by (vm_compute; reflexivity).
  assert (tampered0 <> Raw "") as Hne' by (vm_compute; discriminate).
  assert (signature_valid ideal_hmac tampered0 (ACCESS_TOKEN_SECRET env0) = false)
    as Hsig by (vm_compute; reflexivity).
  split; [done |]. split; [done |]. split.
  - apply (bad_token_rejected ideal_hmac env_late (with_token token0) token0
             (get_booking operators0) db0 Hc Hne (or_introl Hexp)).
  - apply (bad_token_rejected ideal_hmac env0 (with_token tampered0) tampered0
             (get_booking operators0) db0 Hc' Hne' (or_intror Hsig)).
Defined.

(** An identifier that is no [ObjectId], through the router: the delete
    route answers 500, the lookup route writes no response. *)
Lemma get_service_invalid_id_is_rejected :
  dispatch (index_js ideal_hmac sum0 operators0 hex24) env0
    (request0 GET ["api"; "v1"; "services"; "xyz"]) db0
  = (Rejected (BSONError "xyz"), db0)
  /\ dispatch (index_js ideal_hmac sum0 operators0 hex24) env0
       (request0 DELETE ["api"; "v1"; "booking"; "xyz"]) db0
     = (Responded (send 500 (SendFailure "Error deleting booking" (BSONError "xyz"))),
        db0).
Proof. split; vm_compute; reflexivity. Qed.

Lemma invalid_id_outcomes_witness :
  (req_params (with_id GET "xyz") !! "id" = Some "xyz" /\ hex24 "xyz" = None)
  /\ delete_booking hex24 env0 (with_id GET "xyz") db0
     = (Responded (send 500 (SendFailure "Error deleting booking" (BSONError "xyz"))),
        db0)
  /\ get_service_by_id hex24 env0 (with_id GET "xyz") db0
     = (Rejected (BSONError "xyz"), db0).
Proof.
  assert (req_params (with_id GET "xyz") !! "id" = Some "xyz") as Hid
    by (vm_compute; reflexivity).
  assert (hex24 "xyz" = None) as Hparse by (vm_compute; reflexivity).
  split; [done |].
  exact (invalid_id_outcomes hex24 env0 (with_id GET "xyz") db0 "xyz" Hid Hparse).
Defined.

(** C6 as written fails twice.  On an empty [email] the parameter is
    supplied, and the response holds a booking whose [email] is another
    string.  On [email[$ne]=zzz], which the extended query parser delivers
    as an object, the filter is the operator expression and not an
    equality, and the response holds the bookings whose [email] is not
    [zzz]. *)
Lemma email_is_not_always_an_exact_match :
  (req_query (with_email "") !! "email" = Some (VStr "")
   /\ get_booking operators0 env0 (with_email "") db0
      = (Responded (send 200 (SendArray [booking1; booking2])), db0)
   /\ booking2 !! "email" = Some (VStr "a@x.com")
   /\ "a@x.com" <> "")
  /\ (req_query with_email_ne !! "email" = Some (VObj [("$ne", VStr "zzz")])
      /\ booking_query with_email_ne
         = {[ "email" := VObj [("$ne", VStr "zzz")] ]}
      /\ get_booking operators0 env0 with_email_ne db0
         = (Responded (send 200 (SendArray [booking1; booking2])), db0)
      /\ booking2 !! "email" <> Some (VObj [("$ne", VStr "zzz")])).
Proof.
  split.
  - repeat split; try (vm_compute; reflexivity). discriminate.
  - repeat split; try (vm_compute; reflexivity). vm_compute. discriminate.
Qed.

Lemma get_booking_filter_witness :
  outage db0 = None
  /\ get_booking operators0 env0 (request0 GET booking_path) db0
     = (Responded (send 200 (SendArray [booking1; booking2])), db0)
  /\ booking_query with_email_ne = {[ "email" := VObj [("$ne", VStr "zzz")] ]}
  /\ get_booking operators0 env0 (with_email "a@x.com") db0
     = (Responded (send 200 (SendArray [booking2])), db0)
  /\ returned_documents (get_booking operators0 env0 (with_email "A@x.com") db0)
     = []
  /\ returned_documents (get_booking operators0 env0 (with_email "a@x") db0)
     = [].
Proof.
  assert (outage db0 = None) as Hup by reflexivity.
  split; [done |]. split; [| split; [| split; [| split]]].
  - apply (get_booking_filter operators0 env0 (request0 GET booking_path) db0
             Hup).
    vm_compute. reflexivity.
  - apply (get_booking_filter operators0 env0 with_email_ne db0 Hup);
      vm_compute; reflexivity.
  - destruct (get_booking_filter operators0 env0 (with_email "a@x.com") db0 Hup)
      as (_ & _ & Hfiltered).
    destruct (Hfiltered "a@x.com") as (-> & _).
    + vm_compute. reflexivity.
    + discriminate.
    + vm_compute. reflexivity.
  - vm_compute. reflexivity.
  - vm_compute. reflexivity.
Defined.

Lemma get_service_by_id_found_or_404_witness :
  (req_params (with_id GET id_service5) !! "id" = Some id_service5
   /\ hex24 id_service5 = Some 5%N
   /\ hex24 id_nowhere = Some 255%N
   /\ outage db0 = None
   /\ wf_collection (servicesCollection db0)
   /\ service5 ∈ servicesCollection db0
   /\ service5 !! "_id" = Some (VOid 5%N))
  /\ get_service_by_id hex24 env0 (with_id GET id_service5) db0
     = (Responded (send 200 (SendObject service5)), db0)
  /\ get_service_by_id hex24 env0 (with_id GET id_nowhere) db0
     = (Responded
          (send 404 (SendObject {[ "message" := VStr "Service not found" ]})),
        db0).
Proof.
  assert (req_params (with_id GET id_service5) !! "id" = Some id_service5)
    as Hid by (vm_compute; reflexivity).
  assert (req_params (with_id GET id_nowhere) !! "id" = Some id_nowhere)
    as Hid' by (vm_compute; reflexivity).
  assert (hex24 id_service5 = Some 5%N) as Hparse by (vm_compute; reflexivity).
  assert (hex24 id_nowhere = Some 255%N) as Hparse' by (vm_compute; reflexivity).
  assert (outage db0 = None) as Hup by reflexivity.
  pose proof (proj1 db0_wf) as Hwf.
  assert (service5 ∈ servicesCollection db0) as Hin by (by left).
  assert (service5 !! "_id" = Some (VOid 5%N)) as Hdoc
    by (vm_compute; reflexivity).
  split; [done |]. split.
  - exact (proj1 (get_service_by_id_found_or_404 hex24 env0
                    (with_id GET id_service5) db0 id_service5 5%N
                    Hid Hparse Hup Hwf) service5 Hin Hdoc).
  - apply (get_service_by_id_found_or_404 hex24 env0
             (with_id GET id_nowhere) db0 id_nowhere 255%N
             Hid' Hparse' Hup Hwf).
    intros service Hs. apply list_elem_of_singleton in Hs as ->.
    vm_compute. discriminate.
Defined.

Lemma delete_booking_twice_witness :
  (req_params (with_id DELETE id_booking2) !! "id" = Some id_booking2
   /\ hex24 id_booking2 = Some 2%N
   /\ outage db0 = None
   /\ wf_collection (bookingCollection db0)
   /\ booking2 ∈ bookingCollection db0
   /\ booking2 !! "_id" = Some (VOid 2%N))
  /\ exists db1,
       delete_booking hex24 env0 (with_id DELETE id_booking2) db0
       = (Responded
            (send 200 (SendDeleted {| delete_acknowledged := true;
                                      deletedCount := 1 |})), db1)
       /\ delete_booking hex24 env_late (with_id DELETE id_booking2) db1
          = (Responded
               (send 200 (SendDeleted {| delete_acknowledged := true;
                                         deletedCount := 0 |})), db1).
Proof.
  assert (req_params (with_id DELETE id_booking2) !! "id" = Some id_booking2)
    as Hid by (vm_compute; reflexivity).
  assert (hex24 id_booking2 = Some 2%N) as Hparse by (vm_compute; reflexivity).
  assert (outage db0 = None) as Hup by reflexivity.
  pose proof (proj2 db0_wf) as Hwf.
  assert (booking2 ∈ bookingCollection db0) as Hin by (right; left).
  assert (booking2 !! "_id" = Some (VOid 2%N)) as Hdoc
    by (vm_compute; reflexivity).
  split; [done |].
  exact (delete_booking_twice hex24 env0 env_late (with_id DELETE id_booking2)
           db0 id_booking2 2%N booking2 Hid Hparse Hup Hwf Hin Hdoc).
Defined.

(** C8 as written fails on a booking that was created with an ["_id"] of
    its own: the text of an identifier in the body is stored as a string,
    the path identifier converts to an [ObjectId], and the first delete
    already finds nothing. *)
Lemma text_identifier_is_not_deleted :
  dispatch (index_js ideal_hmac sum0 operators0 hex24) env0 post_text_id db0
  = (Responded
       (send 201 (SendInserted {| insert_acknowledged := true;
                                  insertedId := VStr id_text |})),
     db_text_id)
  /\ booking_text_id ∈ bookingCollection db_text_id
  /\ booking_text_id !! "_id" = Some (VStr id_text)
  /\ hex24 id_text = Some 9%N
  /\ dispatch (index_js ideal_hmac sum0 operators0 hex24) env0
       (request0 DELETE ["api"; "v1"; "booking"; id_text]) db_text_id
     = (Responded
          (send 200 (SendDeleted {| delete_acknowledged := true;
                                    deletedCount := 0 |})),
        db_text_id).
Proof.
  split; [vm_compute; reflexivity |]. split; [by do 2 right; left |].
  repeat split; vm_compute; reflexivity.
Qed.

Lemma get_booking_all_superset_witness :
  req_query (request0 GET booking_path) !! "email" = None
  /\ returned_documents (get_booking operators0 env0 (with_email "a@x.com") db0)
     ⊆ returned_documents (get_booking operators0 env0 (request0 GET booking_path) db0)
  /\ returned_documents (get_booking operators0 env0 (with_email "a@x.com") db0)
     = [booking2]
  /\ returned_documents (get_booking operators0 env0 (request0 GET booking_path) db0)
     = [booking1; booking2].
Proof.
  assert (req_query (request0 GET booking_path) !! "email" = None) as Hq
    by (vm_compute; reflexivity).
  split; [done |]. split.
  - exact (get_booking_all_superset operators0 env0 env0 (request0 GET booking_path)
             (with_email "a@x.com") db0 Hq).
  - split; vm_compute; reflexivity.
Defined.

Lemma get_booking_empty_email_witness :
  req_query (with_email "") !! "email" = Some (VStr "")
  /\ booking_query (with_email "") = ∅
  /\ get_booking operators0 env0 (with_email "") db0
     = get_booking operators0 env0 (request0 GET booking_path) db0
  /\ get_booking operators0 env0 (with_email "") db0
     = (Responded (send 200 (SendArray (bookingCollection db0))), db0).
Proof.
  assert (req_query (with_email "") !! "email" = Some (VStr "")) as Hq
    by (vm_compute; reflexivity).
  destruct (get_booking_empty_email operators0 env0 (with_email "") db0 Hq)
    as (Hempty & Hsame & Hall).
  split; [done |]. split; [done |]. split.
  - apply Hsame. vm_compute. reflexivity.
  - by apply Hall.
Defined.

(** The scenario of a login: the token endpoint sets the cookie; a request
    carrying it passes the middleware with the e-mail address in [req.user];
    without the cookie the answer is 401, with a corrupted one 403. *)
Lemma login_scenario :
  jwt_auth ideal_hmac sum0 env0
    {| req_method := POST; req_path := ["jwt-auth"]; req_query := ∅;
       req_cookies := ∅; req_body := claims0; req_params := ∅;
       req_user := None |} db0
  = (Responded
       {| status := 200;
          set_cookie :=
            [("token", token0,
              {| httpOnly := true; secure := true; sameSite := "none" |})];
          sent := SendObject {[ "success" := VBool true ]} |}, db0)
  /\ (exists req',
        authenticateJWT ideal_hmac env0 (with_token token0) = Next req'
        /\ (req_user req' ≫= (fun u : object => u !! "email"))
           = Some (VStr "a@x.com"))
  /\ authenticateJWT ideal_hmac env0 (request0 GET booking_path)
     = Answered (sendStatus 401)
  /\ authenticateJWT ideal_hmac env0 (with_token tampered0)
     = Answered (sendStatus 403).
Proof.
  split; [vm_compute; reflexivity |]. split.
  - eexists. split; vm_compute; reflexivity.
  - split; vm_compute; reflexivity.
Qed.

(** * Further properties of the endpoints *)

Section Token_endpoint.

Context {tag : Type} `{EqDecision tag}.
Variable hmac : string -> string -> jose_header * object -> tag.
Variable imprecise_sum : Z -> Z.
Variable object_condition : list (string * value) -> result (option value -> bool).
Variable parse_oid : string -> option oid.

Lemma signable_inv (payload : object) :
  signable payload = true ->
  claim_is_number payload "iat" = true
  /\ claim_is_number payload "nbf" = true
  /\ payload !! "exp" = None.
Proof.
  unfold signable. rewrite !andb_true_iff, bool_decide_eq_true.
  by intros [[? ?] ?].
Qed.

Lemma sign_signable (payload : object) (secret : option string) (key : string)
  (now : Z) :
  usable_key secret = Some key ->
  signable payload = true ->
  sign hmac imprecise_sum payload secret now
  = Ok (issued_token hmac imprecise_sum key payload now).
Proof.
  intros Hkey (Hiat & Hnbf & Hexp)%signable_inv.
  unfold sign. rewrite Hkey, Hiat, Hnbf.
  unfold claim_is_number at 1. rewrite Hexp. cbn [negb].
  by rewrite bool_decide_eq_false_2 by (intros [? ?]; discriminate).
Qed.

Lemma sign_unsignable (payload : object) (secret : option string) (now : Z) :
  usable_key secret = None \/ signable payload = false ->
  exists e, sign hmac imprecise_sum payload secret now = Err e.
Proof.
  unfold sign, signable. intros Hbad.
  destruct (usable_key secret) as [key |]; [| by eexists].
  destruct Hbad as [| Hbad]; [discriminate |].
  destruct (claim_is_number payload "iat"); [| by eexists].
  destruct (claim_is_number payload "exp"); [| by eexists].
  destruct (claim_is_number payload "nbf"); [| by eexists].
  cbn [negb andb] in *.
  destruct (payload !! "exp") as [v |] eqn:Hexp.
  - rewrite bool_decide_eq_true_2 by (by eexists). by eexists.
  - by rewrite bool_decide_eq_true_2 in Hbad.
Qed.

Lemma issued_claims_other (payload : object) (now : Z) (k : string) :
  k <> "iat" -> k <> "exp" ->
  issued_claims imprecise_sum payload now !! k = payload !! k.
Proof. intros Hi He. unfold issued_claims. by rewrite !lookup_insert_ne. Qed.

Lemma issued_claims_exp (payload : object) (now : Z) :
  issued_claims imprecise_sum payload now !! "exp"
  = Some (VNum (expiry imprecise_sum payload now)).
Proof. unfold issued_claims. by rewrite lookup_insert_eq. Qed.

Lemma issued_claims_iat (payload : object) (now : Z) :
  issued_claims imprecise_sum payload now !! "iat"
  = Some (VNum (issue_timestamp payload now)).
Proof.
  unfold issued_claims. by rewrite lookup_insert_ne, lookup_insert_eq.
Qed.

(** The middleware on a request that carries a token the endpoint issued:
    it passes until the expiry written at issue, and answers 403 from then
    on. *)
Lemma issued_token_passage (env : environment) (req : request tag)
  (key : string) (payload : object) (t : Z) :
  usable_key (ACCESS_TOKEN_SECRET env) = Some key ->
  payload !! "nbf" = None ->
  req_cookies req !! "token"
  = Some (issued_token hmac imprecise_sum key payload t) ->
  authenticateJWT hmac env req
  = if Z.ltb (clock env) (expiry imprecise_sum payload t)
    then Next (set_user req (issued_claims imprecise_sum payload t))
    else Answered (sendStatus 403).
Proof.
  intros Hkey Hnbf Hc. unfold authenticateJWT. rewrite Hc.
  unfold issued_token at 1. cbn [cookie_truthy].
  unfold verify, issued_token, cookie_truthy.
  cbn [negb jws_signature jws_header jws_payload alg]. rewrite Hkey.
  rewrite (bool_decide_eq_true_2 ("HS256" ∈ HS_ALGS)) by (by left).
  rewrite bool_decide_eq_true_2 by reflexivity. cbn [negb].
  unfold check_nbf, check_exp.
  rewrite (issued_claims_other payload t "nbf"), Hnbf by done.
  rewrite issued_claims_exp.
  destruct (Z.leb_spec (expiry imprecise_sum payload t) (clock env)),
    (Z.ltb_spec (clock env) (expiry imprecise_sum payload t));
    try lia; reflexivity.
Qed.

Lemma jwt_auth_responded (env : environment) (req : request tag)
  (db db1 : database) (r : response) :
  jwt_auth hmac imprecise_sum env req db = (Responded r, db1) ->
  exists key,
    usable_key (ACCESS_TOKEN_SECRET env) = Some key
    /\ signable (req_body req) = true
    /\ set_cookie r
       = [("token",
           issued_token hmac imprecise_sum key (req_body req) (clock env),
           token_cookie_options)]
    /\ db1 = db.
Proof.
  unfold jwt_auth. intros Hr.
  destruct (usable_key (ACCESS_TOKEN_SECRET env)) as [key |] eqn:Hkey.
  - destruct (signable (req_body req)) eqn:Hs.
    + rewrite (sign_signable _ _ key _ Hkey Hs) in Hr.
      injection Hr as <- <-. by exists key.
    + destruct (sign_unsignable (req_body req) (ACCESS_TOKEN_SECRET env)
                  (clock env)) as [e He]; [by right |].
      rewrite He in Hr. discriminate.
  - destruct (sign_unsignable (req_body req) (ACCESS_TOKEN_SECRET env)
                (clock env)) as [e He]; [by left |].
    rewrite He in Hr. discriminate.
Qed.

Lemma dispatch_jwt_auth (env : environment) (req : request tag)
  (db : database) :
  req_method req = POST ->
  req_path req = ["jwt-auth"] ->
  dispatch (index_js hmac imprecise_sum object_condition parse_oid) env req db
  = default_error_handler
      (jwt_auth hmac imprecise_sum env (set_params req ∅) db).
Proof.
  intros Hm Hp. unfold index_js.
  cbn [dispatch route_method route_path route_guards route_handler].
  by rewrite Hm, Hp.
Qed.

(** The token endpoint.  A [POST] to [/jwt-auth] is answered 200, with the
    body [{ success: true }] and one cookie, [token], http-only, secure and
    allowed cross-site, holding the token issued for the request body at
    the clock of the call, when the secret is set and the body is signable.
    Otherwise [jwt.sign] throws in the handler, and the answer is the 500
    of the default error handler, with that error and without a cookie.
    The store is left as it was in both cases. *)
Theorem token_endpoint_outcome (env : environment) (req : request tag)
  (db : database) :
  req_method req = POST ->
  req_path req = ["jwt-auth"] ->
  let app := index_js hmac imprecise_sum object_condition parse_oid in
  (forall key,
      usable_key (ACCESS_TOKEN_SECRET env) = Some key ->
      signable (req_body req) = true ->
      dispatch app env req db
      = (Responded
           {| status := 200;
              set_cookie :=
                [("token",
                  issued_token hmac imprecise_sum key (req_body req) (clock env),
                  token_cookie_options)];
              sent := SendObject {[ "success" := VBool true ]} |}, db))
  /\ (usable_key (ACCESS_TOKEN_SECRET env) = None
      \/ signable (req_body req) = false ->
      exists e,
        sign hmac imprecise_sum (req_body req) (ACCESS_TOKEN_SECRET env)
          (clock env) = Err e
        /\ dispatch app env req db
           = (Responded
                {| status := 500; set_cookie := [];
                   sent := SendErrorPage e |}, db)).
Proof.
  intros Hm Hp app. subst app. rewrite (dispatch_jwt_auth _ _ _ Hm Hp).
  unfold jwt_auth. change (req_body (set_params req ∅)) with (req_body req).
  split.
  - intros key Hkey Hs. by rewrite (sign_signable _ _ key _ Hkey Hs).
  - intros Hbad.
    destruct (sign_unsignable (req_body req) (ACCESS_TOKEN_SECRET env)
                (clock env) Hbad) as [e He].
    exists e. by rewrite He.
Qed.

(** Logging in and coming back.  When the token endpoint has answered a
    request whose body has neither [iat] nor [nbf], a later request that
    carries the cookie it set, to a server with the same secret, passes the
    middleware as long as the clock is before the clock of the login plus
    one hour, with the body's fields in [req.user] beside [iat], the clock
    of the login, and [exp], one hour later; from that time on it is
    answered 403. *)
Theorem login_then_authenticate (env env' : environment)
  (req req' : request tag) (db db1 : database) (r : response)
  (token : cookie_value tag) (opts : cookie_options) :
  jwt_auth hmac imprecise_sum env req db = (Responded r, db1) ->
  ("token", token, opts) ∈ set_cookie r ->
  ACCESS_TOKEN_SECRET env' = ACCESS_TOKEN_SECRET env ->
  req_body req !! "iat" = None ->
  req_body req !! "nbf" = None ->
  req_cookies req' !! "token" = Some token ->
  let user := issued_claims imprecise_sum (req_body req) (clock env) in
  authenticateJWT hmac env' req'
  = (if Z.ltb (clock env') (clock env + one_hour)
     then Next (set_user req' user)
     else Answered (sendStatus 403))
  /\ user !! "iat" = Some (VNum (clock env))
  /\ user !! "exp" = Some (VNum (clock env + one_hour))
  /\ (forall k, k <> "iat" -> k <> "exp" -> user !! k = req_body req !! k).
Proof.
  intros Hr Hin Hsecret Hiat Hnbf Hc user. subst user.
  destruct (jwt_auth_responded _ _ _ _ _ Hr) as (key & Hkey & _ & Hset & _).
  rewrite Hset in Hin. apply list_elem_of_singleton in Hin.
  injection Hin as -> _. rewrite <- Hsecret in Hkey.
  assert (expiry imprecise_sum (req_body req) (clock env)
          = clock env + one_hour) as Hexpiry
    by (unfold expiry; by rewrite Hiat).
  assert (issue_timestamp (req_body req) (clock env) = clock env) as Hts
    by (unfold issue_timestamp; by rewrite Hiat).
  split; [| split; [| split]].
  - rewrite <- Hexpiry. by apply (issued_token_passage env' req' key).
  - by rewrite issued_claims_iat, Hts.
  - by rewrite issued_claims_exp, Hexpiry.
  - intros k. apply issued_claims_other.
Qed.

(** The expiry follows an [iat] that the client sends.  When the body of
    the login has no [nbf] and carries an [iat] of its own, a non-zero
    integer in the range where adding an hour is exact, the token is
    accepted exactly while the clock is before that [iat] plus one hour,
    whatever the clock was at the login. *)
Theorem client_iat_sets_expiry (env env' : environment)
  (req req' : request tag) (db db1 : database) (r : response)
  (token : cookie_value tag) (opts : cookie_options) (n : Z) :
  jwt_auth hmac imprecise_sum env req db = (Responded r, db1) ->
  ("token", token, opts) ∈ set_cookie r ->
  ACCESS_TOKEN_SECRET env' = ACCESS_TOKEN_SECRET env ->
  req_body req !! "nbf" = None ->
  req_body req !! "iat" = Some (VNum n) ->
  n <> 0 ->
  exact_sum n = true ->
  req_cookies req' !! "token" = Some token ->
  (clock env' < n + one_hour ->
     exists user,
       authenticateJWT hmac env' req' = Next (set_user req' user)
       /\ user !! "exp" = Some (VNum (n + one_hour)))
  /\ (n + one_hour <= clock env' ->
      authenticateJWT hmac env' req' = Answered (sendStatus 403)).
Proof.
  intros Hr Hin Hsecret Hnbf Hiat Hn Hexact Hc.
  destruct (jwt_auth_responded _ _ _ _ _ Hr) as (key & Hkey & _ & Hset & _).
  rewrite Hset in Hin. apply list_elem_of_singleton in Hin.
  injection Hin as -> _. rewrite <- Hsecret in Hkey.
  rewrite (issued_token_passage env' req' key _ _ Hkey Hnbf Hc).
  assert (expiry imprecise_sum (req_body req) (clock env) = n + one_hour)
    as Hexpiry.
  { unfold expiry. rewrite Hiat, Hexact.
    destruct (Z.eqb_spec n 0); [done | reflexivity]. }
  rewrite Hexpiry. split.
  - intros Hlt. destruct (Z.ltb_spec (clock env') (n + one_hour)); [| lia].
    eexists. split; [reflexivity |].
    by rewrite issued_claims_exp, Hexpiry.
  - intros Hge. destruct (Z.ltb_spec (clock env') (n + one_hour)); [lia | done].
Qed.

End Token_endpoint.

Section Store_endpoints.

Context {tag : Type}.
Variable object_condition : list (string * value) -> result (option value -> bool).
Variable parse_oid : string -> option oid.

(** *** Deleting *)

(** [deleteOne] removes at most one document, a matching one, and keeps
    every other document in place. *)
Lemma deleteOne_effect (query : object) (c : list object) :
  let c' := fst (deleteOne query c) in
  let n := snd (deleteOne query c) in
  (n <= 1)%nat
  /\ List.length c = (List.length c' + n)%nat
  /\ (forall d, d ∈ c' -> d ∈ c)
  /\ (forall d, d ∈ c -> matches query d = false -> d ∈ c')
  /\ (n = 0%nat <-> Forall (fun d => matches query d = false) c)
  /\ (n = 0%nat -> c' = c).
Proof.
  induction c as [| d c IH]; cbn [deleteOne].
  - cbn. repeat split; auto.
  - destruct (matches query d) eqn:Hm.
    + cbn [fst snd List.length]. repeat split.
      * lia.
      * lia.
      * intros x Hx. by right.
      * intros x Hx Hno. apply elem_of_cons in Hx as [-> | Hx]; [congruence | done].
      * discriminate.
      * intros Hall. apply Forall_cons in Hall as [Hd _]. congruence.
      * discriminate.
    + destruct (deleteOne query c) as [c' n] eqn:Hdel. cbn [fst snd] in *.
      destruct IH as (Hn & Hlen & Hsub & Hkeep & Hzero & Hsame).
      repeat split.
      * done.
      * cbn [List.length]. lia.
      * intros x Hx. apply elem_of_cons in Hx as [-> | Hx]; [by left |].
        right. by apply Hsub.
      * intros x Hx Hno. apply elem_of_cons in Hx as [-> | Hx]; [by left |].
        right. by apply Hkeep.
      * intros Hz. apply Forall_cons. split; [done | by apply Hzero].
      * intros Hall. apply Forall_cons in Hall as [_ Hall]. by apply Hzero.
      * intros Hz. by rewrite (Hsame Hz).
Qed.

Lemma ids_deleteOne (query : object) (c : list object) (i : option value) :
  i ∈ ids (fst (deleteOne query c)) -> i ∈ ids c.
Proof.
  induction c as [| d c IH]; cbn [deleteOne]; [done |].
  destruct (matches query d).
  - cbn [fst ids List.map]. intros Hi. by right.
  - destruct (deleteOne query c) as [c' n]. cbn [fst ids List.map] in *.
    intros Hi. apply elem_of_cons in Hi as [-> | Hi]; [by left |].
    right. by apply IH.
Qed.

(** Deleting keeps the invariant. *)
Lemma deleteOne_wf (query : object) (c : list object) :
  wf_collection c -> wf_collection (fst (deleteOne query c)).
Proof.
  induction c as [| d c IH]; cbn [deleteOne]; [done |].
  intros (Hd & Hfresh & Hwf)%wf_collection_cons.
  destruct (matches query d); [done |].
  specialize (IH Hwf). pose proof (ids_deleteOne query c (d !! "_id")) as Hids.
  destruct (deleteOne query c) as [c' n]. cbn [fst] in *.
  apply wf_collection_cons. split; [done |]. split; [| done].
  intros Hmem. by apply Hfresh, Hids.
Qed.

Lemma deleteOne_last (query doc : object) (c : list object) :
  Forall (fun d => matches query d = false) c ->
  matches query doc = true ->
  deleteOne query (c ++ [doc])%list = (c, 1%nat).
Proof.
  intros Hno Hm. induction Hno as [| d c Hd _ IH]; cbn [deleteOne app].
  - by rewrite Hm.
  - by rewrite Hd, IH.
Qed.

(** What a delete does to the bookings.  For an identifier that converts,
    on a store that answers: the response is 200 with a [deletedCount] of 0
    or 1; the collection loses exactly that many documents; the documents
    with another identifier all stay, and nothing is added; the count is 0
    exactly when no booking has the identifier, and then the collection is
    unchanged. *)
Theorem delete_booking_effect (env : environment) (req : request tag)
  (db : database) (id : string) (o : oid) :
  req_params req !! "id" = Some id ->
  parse_oid id = Some o ->
  outage db = None ->
  Forall has_id (bookingCollection db) ->
  exists n c',
    delete_booking parse_oid env req db
    = (Responded
         (send 200 (SendDeleted {| delete_acknowledged := true;
                                   deletedCount := n |})),
       with_booking db c')
    /\ (n <= 1)%nat
    /\ List.length (bookingCollection db) = (List.length c' + n)%nat
    /\ (forall d, d ∈ c' -> d ∈ bookingCollection db)
    /\ (forall d, d ∈ bookingCollection db ->
                  d !! "_id" <> Some (VOid o) -> d ∈ c')
    /\ (n = 0%nat <->
        forall d, d ∈ bookingCollection db -> d !! "_id" <> Some (VOid o))
    /\ (n = 0%nat -> c' = bookingCollection db).
Proof.
  intros Hid Hparse Hup Hids.
  pose proof (deleteOne_effect {[ "_id" := VOid o ]} (bookingCollection db))
    as (Hn & Hlen & Hsub & Hkeep & Hzero & Hsame).
  rewrite (delete_booking_answering parse_oid env req db id o Hid Hparse Hup).
  destruct (deleteOne {[ "_id" := VOid o ]} (bookingCollection db))
    as [c' n] eqn:Hdel.
  cbn [fst snd] in *. exists n, c'. split; [done |].
  split; [done |]. split; [done |]. split; [done |].
  rewrite Forall_forall in Hids. split; [| split; [| done]].
  - intros d Hd Hne. apply Hkeep; [done |].
    apply not_true_is_false. by rewrite (matches_id o d (Hids d Hd)).
  - rewrite Hzero, Forall_forall. split.
    + intros Hno d Hd. rewrite <- (matches_id o d (Hids d Hd)).
      by rewrite (Hno d Hd).
    + intros Hno d Hd. apply not_true_is_false.
      rewrite (matches_id o d (Hids d Hd)). by apply Hno.
Qed.

(** *** Inserting *)

Lemma no_duplicate_id (i : option value) (c : list object) :
  i ∉ ids c ->
  existsb (fun d : object => bool_decide (d !! "_id" = i)) c = false.
Proof.
  intros Hfresh. apply not_true_is_false. intros Hex.
  apply existsb_exists in Hex as (d & Hd & Heq).
  apply bool_decide_eq_true in Heq. apply Hfresh. rewrite <- Heq.
  by apply elem_of_ids, list_elem_of_In.
Qed.

Lemma with_booking_back (db : database) (c : list object) :
  with_booking (with_booking db c) (bookingCollection db) = db.
Proof. by destruct db. Qed.

(** A booking created is a booking listed.  For a body without ["_id"], a
    generated identifier that no booking has, and a store that answers: the
    response is 201 with that identifier as [insertedId]; the bookings
    afterwards are those there were and the body with the identifier; the
    listing without a filter then returns exactly those, and the listing
    filtered by the body's own e-mail address, a string, holds the new
    booking. *)
Theorem post_booking_then_list (message : string) (env env' : environment)
  (req req' : request tag) (db : database) :
  outage db = None ->
  req_body req !! "_id" = None ->
  Some (VOid (generated_id env)) ∉ ids (bookingCollection db) ->
  let doc : object := <["_id" := VOid (generated_id env)]> (req_body req) in
  exists db1,
    post_booking message env req db
    = (Responded
         (send 201 (SendInserted {| insert_acknowledged := true;
                                    insertedId := VOid (generated_id env) |})),
       db1)
    /\ (forall d, d ∈ bookingCollection db1 <-> d ∈ bookingCollection db \/ d = doc)
    /\ (req_query req' !! "email" = None ->
        forall d,
          d ∈ returned_documents (get_booking object_condition env' req' db1)
          <-> d ∈ bookingCollection db \/ d = doc)
    /\ (forall email,
          req_body req !! "email" = Some (VStr email) ->
          req_query req' !! "email" = Some (VStr email) ->
          doc ∈ returned_documents (get_booking object_condition env' req' db1)).
Proof.
  intros Hup Hnoid Hfresh doc.
  assert (doc !! "_id" = Some (VOid (generated_id env))) as Hdoc
    by apply lookup_insert_eq.
  exists (with_booking db (bookingCollection db ++ [doc])%list).
  assert (forall d, d ∈ (bookingCollection db ++ [doc])%list
                    <-> d ∈ bookingCollection db \/ d = doc) as Hmem.
  { intros d. by rewrite elem_of_app, list_elem_of_singleton. }
  split; [| split; [| split]].
  - rewrite (post_booking_answering message env req db Hup).
    unfold insertOne. rewrite Hnoid. fold doc. rewrite Hdoc. cbn [is_array].
    by rewrite (no_duplicate_id _ _ Hfresh).
  - exact Hmem.
  - intros Hq d. unfold get_booking, await.
    cbn [with_booking outage bookingCollection]. rewrite Hup.
    rewrite (booking_query_absent req') by (by left). rewrite find_all.
    cbn [returned_documents fst send sent]. apply Hmem.
  - intros email Hemail Hq. unfold get_booking, await.
    cbn [with_booking outage bookingCollection]. rewrite Hup.
    unfold booking_query. rewrite Hq. cbn [value_truthy].
    destruct (truthy email).
    + rewrite find_plain by done. cbn [returned_documents fst send sent].
      apply elem_of_filter_list. split; [apply Hmem; by right |].
      unfold doc. rewrite lookup_insert_ne, Hemail by done.
      by apply field_matches_string.
    + rewrite find_all. cbn [returned_documents fst send sent].
      apply Hmem. by right.
Qed.

(** Creating a booking and deleting it by the identifier returned gives the
    store back as it was.  For a body without ["_id"], a generated
    identifier that no booking has, the path identifier that converts to
    it, and a store that answers and whose bookings all have an ["_id"]:
    the delete after the insert reports one deletion and leaves the store
    of before the insert. *)
Theorem post_then_delete_restores (message : string) (env env' : environment)
  (req req' : request tag) (db : database) (id : string) :
  outage db = None ->
  Forall has_id (bookingCollection db) ->
  req_body req !! "_id" = None ->
  Some (VOid (generated_id env)) ∉ ids (bookingCollection db) ->
  req_params req' !! "id" = Some id ->
  parse_oid id = Some (generated_id env) ->
  exists r db1,
    post_booking message env req db = (Responded r, db1)
    /\ status r = 201
    /\ delete_booking parse_oid env' req' db1
       = (Responded
            (send 200 (SendDeleted {| delete_acknowledged := true;
                                      deletedCount := 1 |})), db).
Proof.
  intros Hup Hids Hnoid Hfresh Hid Hparse.
  set (doc := <["_id" := VOid (generated_id env)]> (req_body req) : object).
  assert (doc !! "_id" = Some (VOid (generated_id env))) as Hdoc
    by apply lookup_insert_eq.
  eexists. exists (with_booking db (bookingCollection db ++ [doc])%list).
  split; [| split].
  - rewrite (post_booking_answering message env req db Hup).
    unfold insertOne. rewrite Hnoid. fold doc. rewrite Hdoc. cbn [is_array].
    rewrite (no_duplicate_id _ _ Hfresh). reflexivity.
  - reflexivity.
  - rewrite (delete_booking_answering parse_oid env' req'
               (with_booking db (bookingCollection db ++ [doc])%list) id _
               Hid Hparse Hup).
    cbn [with_booking bookingCollection].
    rewrite (deleteOne_last _ doc).
    + cbn [fst snd]. by rewrite with_booking_back.
    + apply matches_absent; [done |]. intros d Hd Heq. apply Hfresh.
      rewrite <- Heq. by apply elem_of_ids.
    + rewrite matches_singleton, Hdoc. cbn [field_matches].
      by apply bool_decide_eq_true_2.
Qed.

(** A body that brings an ["_id"] some booking already has is refused: the
    response is 500 with the handler's message and the duplicate-key error,
    and the store is left as it was. *)
Theorem post_booking_duplicate_id (message : string) (env : environment)
  (req : request tag) (db : database) (v : value) (d : object) :
  outage db = None ->
  req_body req !! "_id" = Some v ->
  is_array (Some v) = false ->
  d ∈ bookingCollection db ->
  d !! "_id" = Some v ->
  post_booking message env req db
  = (Responded
       (send 500
          (SendFailure message (MongoError "E11000 duplicate key error"))),
     db).
Proof.
  intros Hup Hbody Harr Hd Hsame.
  rewrite (post_booking_answering message env req db Hup).
  unfold insertOne. rewrite Hbody, Hbody, Harr.
  assert (existsb (fun d0 : object => bool_decide (d0 !! "_id" = Some v))
            (bookingCollection db) = true) as ->; [| done].
  apply existsb_exists. exists d. split; [by apply list_elem_of_In |].
  by apply bool_decide_eq_true_2.
Qed.

End Store_endpoints.

Section Routes.

Context {tag : Type}.
Variable hmac : string -> string -> jose_header * object -> tag.
Variable imprecise_sum : Z -> Z.
Variable object_condition : list (string * value) -> result (option value -> bool).
Variable parse_oid : string -> option oid.

(** *** What a request can do to the store *)

Lemma snd_default_error_handler (o : outcome * database) :
  snd (default_error_handler (tag := tag) o) = snd o.
Proof. by destruct o as [[r | e | e |] db]. Qed.

(** A relation every handler keeps, and that holds of a store and itself,
    holds between the store before and after any request. *)
Lemma dispatch_keeps (R : database -> database -> Prop)
  (app : list (@route tag)) :
  (forall db, R db db) ->
  handlers_keep R app ->
  forall env req db, R db (snd (dispatch app env req db)).
Proof.
  intros Hrefl Happ env req db.
  induction Happ as [| rt app Hrt _ IH]; cbn [dispatch]; [apply Hrefl |].
  destruct (bool_decide (route_method rt = req_method req)); [| done].
  destruct (match_path (route_path rt) (req_path req)) as [ps |]; [| done].
  rewrite snd_default_error_handler. unfold run_route.
  destruct (run_guards (route_guards rt) env (set_params req ps)) as [r | req'].
  - apply Hrefl.
  - apply Hrt.
Qed.

Ltac handler_cases :=
  intros ? ? ?;
  unfold root, jwt_auth, get_services, get_service_by_id, get_booking,
    post_booking, delete_booking, new_ObjectId, await, await_write;
  repeat case_match; simplify_eq; cbn [snd with_booking servicesCollection
                                         bookingCollection outage].

Lemma reading_handlers_leave_store :
  (forall env (req : request tag) db, snd (root env req db) = db)
  /\ (forall env (req : request tag) db,
        snd (jwt_auth hmac imprecise_sum env req db) = db)
  /\ (forall env (req : request tag) db,
        snd (get_services object_condition env req db) = db)
  /\ (forall env (req : request tag) db,
        snd (get_service_by_id parse_oid env req db) = db)
  /\ (forall env (req : request tag) db,
        snd (get_booking object_condition env req db) = db).
Proof. repeat split; handler_cases; reflexivity. Qed.

(** A request is answered by a route of the table whose method and path
    match it, or by none. *)
Lemma dispatch_cases (app : list (@route tag)) (env : environment)
  (req : request tag) (db : database) :
  dispatch app env req db = (Unrouted, db)
  \/ exists rt ps,
       rt ∈ app
       /\ route_method rt = req_method req
       /\ match_path (route_path rt) (req_path req) = Some ps
       /\ dispatch app env req db
          = default_error_handler
              (run_route (route_guards rt) (route_handler rt) env
                 (set_params req ps) db).
Proof.
  induction app as [| rt app IH]; cbn [dispatch]; [by left |].
  destruct (bool_decide (route_method rt = req_method req)) eqn:Hm.
  - apply bool_decide_eq_true in Hm.
    destruct (match_path (route_path rt) (req_path req)) as [ps |] eqn:Hp.
    + right. exists rt, ps. split; [by left | done].
    + destruct IH as [IH | (rt' & ps & Hin & IH)]; [by left |].
      right. exists rt', ps. split; [by right | done].
  - destruct IH as [IH | (rt' & ps & Hin & IH)]; [by left |].
    right. exists rt', ps. split; [by right | done].
Qed.

Ltac each_route Hin :=
  repeat (apply elem_of_cons in Hin as [-> | Hin]);
  [.. | by apply elem_of_nil in Hin].

Lemma addresses_route (m : verb) (pattern : list segment) (req : request tag)
  (ps : gmap string string) :
  m = req_method req ->
  match_path pattern (req_path req) = Some ps ->
  addresses m pattern req = true.
Proof.
  intros Hm Hp. unfold addresses. rewrite Hp.
  rewrite bool_decide_eq_true_2 by done.
  by rewrite bool_decide_eq_true_2 by (by eexists).
Qed.

(** Only the two booking routes that write can change the store: after a
    request that is neither a [POST] to [/api/v1/booking] nor a [DELETE] to
    [/api/v1/booking/:id], the store is the store before it. *)
Theorem only_booking_writes_change_store (env : environment)
  (req : request tag) (db : database) :
  addresses POST (api_v1 [Lit "booking"]) req = false ->
  addresses DELETE (api_v1 [Lit "booking"; Param "id"]) req = false ->
  snd (dispatch (index_js hmac imprecise_sum object_condition parse_oid)
         env req db) = db.
Proof.
  destruct reading_handlers_leave_store as (Hroot & Hjwt & Hall & Hone & Hlist).
  intros Hpost Hdelete.
  destruct (dispatch_cases
              (index_js hmac imprecise_sum object_condition parse_oid)
              env req db)
    as [-> | (rt & ps & Hin & Hmeth & Hmatch & ->)]; [done |].
  rewrite snd_default_error_handler.
  unfold index_js in Hin.
  each_route Hin;
    cbn [route_method route_path route_guards route_handler] in *;
    unfold run_route; cbn [run_guards]; try done.
  - by rewrite (addresses_route _ _ _ _ Hmeth Hmatch) in Hpost.
  - by rewrite (addresses_route _ _ _ _ Hmeth Hmatch) in Hdelete.
Qed.

(** No request changes the services: in both files the services collection
    after a request, whatever the request and however it ends, is the one
    before it. *)
Theorem services_never_modified (env : environment) (req : request tag)
  (db : database) :
  let after (app : list route) := snd (dispatch app env req db) in
  servicesCollection
    (after (index_js hmac imprecise_sum object_condition parse_oid))
  = servicesCollection db
  /\ servicesCollection (after (part_000 object_condition parse_oid))
     = servicesCollection db.
Proof.
  cbn zeta.
  split;
    apply (dispatch_keeps
             (fun db db' => servicesCollection db' = servicesCollection db));
    try done;
    unfold handlers_keep, index_js, part_000;
    repeat apply Forall_cons_2; try apply Forall_nil_2;
    cbn [route_handler]; handler_cases; done.
Qed.

(** Every request keeps the invariant of both collections: identifiers
    stay present, stay unique, and are never arrays. *)
Theorem dispatch_preserves_wf (env : environment) (req : request tag)
  (db : database) :
  wf_collection (servicesCollection db) ->
  wf_collection (bookingCollection db) ->
  let db' :=
    snd (dispatch (index_js hmac imprecise_sum object_condition parse_oid)
           env req db) in
  wf_collection (servicesCollection db') /\ wf_collection (bookingCollection db').
Proof.
  intros Hs Hb db'. subst db'.
  apply (dispatch_keeps
           (fun db db' =>
              wf_collection (servicesCollection db) ->
              wf_collection (bookingCollection db) ->
              wf_collection (servicesCollection db')
              /\ wf_collection (bookingCollection db'))); try done.
  clear. unfold handlers_keep, index_js.
  repeat apply Forall_cons_2; try apply Forall_nil_2;
    cbn [route_handler]; handler_cases; try done.
  all: intros Hs Hb; split; [done |].
  all: first
         [ by eapply insertOne_wf
         | match goal with
           | E : deleteOne ?q ?c = (?c', ?n) |- wf_collection ?c' =>
               change c' with (fst (c', n)); rewrite <- E;
               by apply deleteOne_wf
           end ].
Qed.

(** *** Listing the services, and requests without a route *)

(** The listing of services, in both files: on a store that answers, 200
    with every service document in the order of the collection, whatever
    query, cookies or body the request carries. *)
Theorem services_are_listed (env : environment) (req : request tag)
  (db : database) :
  req_method req = GET ->
  req_path req = ["api"; "v1"; "services"] ->
  outage db = None ->
  dispatch (index_js hmac imprecise_sum object_condition parse_oid) env req db
  = (Responded (send 200 (SendArray (servicesCollection db))), db)
  /\ dispatch (part_000 object_condition parse_oid) env req db
     = (Responded (send 200 (SendArray (servicesCollection db))), db).
Proof.
  intros Hm Hp Hup.
  assert (forall r : request tag,
             default_error_handler (get_services object_condition env r db)
             = (Responded (send 200 (SendArray (servicesCollection db))), db))
    as Hlist.
  { intros r. unfold get_services, await. by rewrite Hup, find_all. }
  unfold index_js, part_000, api_v1.
  cbn [dispatch route_method route_path route_guards route_handler].
  rewrite Hm, Hp. split; apply Hlist.
Qed.

(** Neither file routes a [PUT] or a [PATCH]: no request updates a
    document in place, and such a request leaves the store as it was. *)
Theorem no_update_route (env : environment) (req : request tag)
  (db : database) :
  req_method req = PUT \/ req_method req = PATCH ->
  dispatch (index_js hmac imprecise_sum object_condition parse_oid) env req db
  = (Unrouted, db)
  /\ dispatch (part_000 object_condition parse_oid) env req db = (Unrouted, db).
Proof.
  intros Hm. split.
  - destruct (dispatch_cases
                (index_js hmac imprecise_sum object_condition parse_oid)
                env req db)
      as [-> | (rt & ps & Hin & Hmeth & _)]; [done |].
    unfold index_js in Hin. each_route Hin;
      cbn [route_method] in Hmeth; destruct Hm; congruence.
  - destruct (dispatch_cases (part_000 object_condition parse_oid) env req db)
      as [-> | (rt & ps & Hin & Hmeth & _)]; [done |].
    unfold part_000 in Hin. each_route Hin;
      cbn [route_method] in Hmeth; destruct Hm; congruence.
Qed.

(** *** The earlier file *)

(** The earlier file has no delete and no token endpoint: it routes no
    [DELETE] request and no request to [/jwt-auth]. *)
Theorem part_000_without_delete_and_token (env : environment)
  (req : request tag) (db : database) :
  req_method req = DELETE \/ req_path req = ["jwt-auth"] ->
  dispatch (part_000 object_condition parse_oid) env req db = (Unrouted, db).
Proof.
  intros Hreq.
  destruct (dispatch_cases (part_000 object_condition parse_oid) env req db)
    as [-> | (rt & ps & Hin & Hmeth & Hmatch & _)]; [done |].
  unfold part_000, api_v1 in Hin.
  each_route Hin; cbn [route_method route_path] in *;
    (destruct Hreq as [Hm | Hp];
     [congruence | rewrite Hp in Hmatch; vm_compute in Hmatch; discriminate]).
Qed.

End Routes.

(** * The further properties on concrete requests *)

Lemma token_endpoint_outcome_witness :
  (req_method login0 = POST /\ req_path login0 = ["jwt-auth"])
  /\ dispatch (index_js ideal_hmac sum0 operators0 hex24) env0 login0 db0
     = (Responded logged_in0, db0)
  /\ (exists e,
        dispatch (index_js ideal_hmac sum0 operators0 hex24) env0
          login_with_exp db0
        = (Responded
             {| status := 500; set_cookie := []; sent := SendErrorPage e |},
           db0)).
Proof.
  split; [done |]. split.
  - apply (proj1 (token_endpoint_outcome ideal_hmac sum0 operators0 hex24
                    env0 login0 db0 eq_refl eq_refl) "s3cret");
      vm_compute; reflexivity.
  - destruct (proj2 (token_endpoint_outcome ideal_hmac sum0 operators0 hex24
                       env0 login_with_exp db0 eq_refl eq_refl))
      as (e & _ & Hanswer).
    + right. vm_compute. reflexivity.
    + by exists e.
Defined.

Lemma login0_responded :
  jwt_auth ideal_hmac sum0 env0 login0 db0 = (Responded logged_in0, db0)
  /\ ("token", token0, token_cookie_options) ∈ set_cookie logged_in0.
Proof. split; [vm_compute; reflexivity | by left]. Qed.

Lemma login_then_authenticate_witness :
  (jwt_auth ideal_hmac sum0 env0 login0 db0 = (Responded logged_in0, db0)
   /\ ("token", token0, token_cookie_options) ∈ set_cookie logged_in0
   /\ ACCESS_TOKEN_SECRET env_soon = ACCESS_TOKEN_SECRET env0
   /\ req_body login0 !! "iat" = None
   /\ req_body login0 !! "nbf" = None
   /\ req_cookies (with_token token0) !! "token" = Some token0)
  /\ authenticateJWT ideal_hmac env_soon (with_token token0)
     = Next (set_user (with_token token0) payload0)
  /\ authenticateJWT ideal_hmac env_late (with_token token0)
     = Answered (sendStatus 403).
Proof.
  destruct login0_responded as [Hr Hin].
  assert (ACCESS_TOKEN_SECRET env_soon = ACCESS_TOKEN_SECRET env0) as Hs
    by reflexivity.
  assert (ACCESS_TOKEN_SECRET env_late = ACCESS_TOKEN_SECRET env0) as Hs'
    by reflexivity.
  assert (req_body login0 !! "iat" = None) as Hiat by (vm_compute; reflexivity).
  assert (req_body login0 !! "nbf" = None) as Hnbf by (vm_compute; reflexivity).
  assert (req_cookies (with_token token0) !! "token" = Some token0) as Hc
    by (vm_compute; reflexivity).
  split; [done |]. split.
  - rewrite (proj1 (login_then_authenticate ideal_hmac sum0 env0 env_soon login0
                      (with_token token0) db0 db0 logged_in0 token0
                      token_cookie_options Hr Hin Hs Hiat Hnbf Hc)).
    vm_compute. reflexivity.
  - rewrite (proj1 (login_then_authenticate ideal_hmac sum0 env0 env_late login0
                      (with_token token0) db0 db0 logged_in0 token0
                      token_cookie_options Hr Hin Hs' Hiat Hnbf Hc)).
    vm_compute. reflexivity.
Defined.

Lemma client_iat_sets_expiry_witness :
  (jwt_auth ideal_hmac sum0 env_late login_backdated db0
   = (Responded
        {| status := 200;
           set_cookie := [("token", token_backdated, token_cookie_options)];
           sent := SendObject {[ "success" := VBool true ]} |}, db0)
   /\ req_body login_backdated !! "nbf" = None
   /\ req_body login_backdated !! "iat" = Some (VNum 10)
   /\ 10 <> 0
   /\ exact_sum 10 = true
   /\ req_cookies (with_token token_backdated) !! "token" = Some token_backdated
   /\ 10 + one_hour <= clock env_late)
  /\ authenticateJWT ideal_hmac env_late (with_token token_backdated)
     = Answered (sendStatus 403).
Proof.
  assert (jwt_auth ideal_hmac sum0 env_late login_backdated db0
          = (Responded
               {| status := 200;
                  set_cookie := [("token", token_backdated, token_cookie_options)];
                  sent := SendObject {[ "success" := VBool true ]} |}, db0))
    as Hr by (vm_compute; reflexivity).
  assert (req_body login_backdated !! "nbf" = None) as Hnbf
    by (vm_compute; reflexivity).
  assert (req_body login_backdated !! "iat" = Some (VNum 10)) as Hiat
    by (vm_compute; reflexivity).
  assert (10 <> 0) as Hn by lia.
  assert (exact_sum 10 = true) as Hexact by (vm_compute; reflexivity).
  assert (req_cookies (with_token token_backdated) !! "token"
          = Some token_backdated) as Hc by (vm_compute; reflexivity).
  assert (10 + one_hour <= clock env_late) as Hlate
    by (unfold one_hour, env_late; cbn [clock]; lia).
  split; [done |].
  apply (client_iat_sets_expiry ideal_hmac sum0 env_late env_late
           login_backdated (with_token token_backdated) db0 db0 _
           token_backdated token_cookie_options 10 Hr (list_elem_of_here _ _)
           eq_refl Hnbf Hiat Hn Hexact Hc).
  exact Hlate.
Defined.

Lemma delete_booking_effect_witness :
  (req_params (with_id DELETE id_nowhere) !! "id" = Some id_nowhere
   /\ hex24 id_nowhere = Some 255%N
   /\ outage db0 = None
   /\ Forall has_id (bookingCollection db0))
  /\ exists n c',
       delete_booking hex24 env0 (with_id DELETE id_nowhere) db0
       = (Responded
            (send 200 (SendDeleted {| delete_acknowledged := true;
                                      deletedCount := n |})),
          with_booking db0 c')
       /\ (n <= 1)%nat
       /\ List.length (bookingCollection db0) = (List.length c' + n)%nat.
Proof.
  assert (req_params (with_id DELETE id_nowhere) !! "id" = Some id_nowhere)
    as Hid by (vm_compute; reflexivity).
  assert (hex24 id_nowhere = Some 255%N) as Hparse by (vm_compute; reflexivity).
  assert (outage db0 = None) as Hup by reflexivity.
  pose proof (proj1 (proj2 db0_wf)) as Hids.
  split; [done |].
  destruct (delete_booking_effect hex24 env0 (with_id DELETE id_nowhere) db0
              id_nowhere 255%N Hid Hparse Hup Hids)
    as (n & c' & Hdel & Hn & Hlen & _).
  exists n, c'. split; [exact Hdel |]. split; [exact Hn | exact Hlen].
Defined.

Lemma post0_hypotheses :
  outage db0 = None
  /\ req_body post0 !! "_id" = None
  /\ Some (VOid (generated_id env0)) ∉ ids (bookingCollection db0).
Proof.
  split; [reflexivity |]. split; [vm_compute; reflexivity |]. by_compute.
Qed.

Lemma post_booking_then_list_witness :
  (outage db0 = None
   /\ req_body post0 !! "_id" = None
   /\ Some (VOid (generated_id env0)) ∉ ids (bookingCollection db0))
  /\ exists db1,
       post_booking "Error adding booking" env0 post0 db0
       = (Responded
            (send 201 (SendInserted {| insert_acknowledged := true;
                                       insertedId := VOid 7%N |})),
          db1)
       /\ booking_stored
          ∈ returned_documents
              (get_booking operators0 env0 (request0 GET booking_path) db1)
       /\ booking_stored
          ∈ returned_documents (get_booking operators0 env0 (with_email "b@x.com") db1).
Proof.
  destruct post0_hypotheses as (Hup & Hnoid & Hfresh).
  split; [done |].
  destruct (post_booking_then_list operators0 "Error adding booking" env0 env0 post0
              (request0 GET booking_path) db0 Hup Hnoid Hfresh)
    as (db1 & Hpost & _ & Hall & _).
  destruct (post_booking_then_list operators0 "Error adding booking" env0 env0 post0
              (with_email "b@x.com") db0 Hup Hnoid Hfresh)
    as (db1' & Hpost' & _ & _ & Hmine).
  assert (db1' = db1) as -> by congruence.
  exists db1. split; [exact Hpost |]. split.
  - apply Hall; [vm_compute; reflexivity | by right].
  - apply (Hmine "b@x.com"); vm_compute; reflexivity.
Defined.

Lemma post_then_delete_restores_witness :
  (outage db0 = None
   /\ Forall has_id (bookingCollection db0)
   /\ req_body post0 !! "_id" = None
   /\ (Some (VOid (generated_id env0)) ∉ ids (bookingCollection db0))
   /\ req_params (with_id DELETE id_generated) !! "id" = Some id_generated
   /\ hex24 id_generated = Some (generated_id env0))
  /\ exists r db1,
       post_booking "Error adding booking" env0 post0 db0 = (Responded r, db1)
       /\ status r = 201
       /\ delete_booking hex24 env_soon (with_id DELETE id_generated) db1
          = (Responded
               (send 200 (SendDeleted {| delete_acknowledged := true;
                                         deletedCount := 1 |})), db0).
Proof.
  destruct post0_hypotheses as (Hup & Hnoid & Hfresh).
  pose proof (proj1 (proj2 db0_wf)) as Hids.
  assert (req_params (with_id DELETE id_generated) !! "id" = Some id_generated)
    as Hid by (vm_compute; reflexivity).
  assert (hex24 id_generated = Some (generated_id env0)) as Hparse
    by (vm_compute; reflexivity).
  split; [done |].
  exact (post_then_delete_restores hex24 "Error adding booking" env0 env_soon
           post0 (with_id DELETE id_generated) db0 id_generated
           Hup Hids Hnoid Hfresh Hid Hparse).
Defined.

Lemma post_booking_duplicate_id_witness :
  (outage db_keyed = None
   /\ req_body post_duplicate !! "_id" = Some (VStr "k1")
   /\ is_array (Some (VStr "k1")) = false
   /\ booking_keyed ∈ bookingCollection db_keyed
   /\ booking_keyed !! "_id" = Some (VStr "k1"))
  /\ post_booking "Error adding booking" env0 post_duplicate db_keyed
     = (Responded
          (send 500
             (SendFailure "Error adding booking"
                (MongoError "E11000 duplicate key error"))), db_keyed).
Proof.
  assert (outage db_keyed = None) as Hup by reflexivity.
  assert (req_body post_duplicate !! "_id" = Some (VStr "k1")) as Hbody
    by (vm_compute; reflexivity).
  assert (is_array (Some (VStr "k1")) = false) as Harr by reflexivity.
  assert (booking_keyed ∈ bookingCollection db_keyed) as Hin by (right; left).
  assert (booking_keyed !! "_id" = Some (VStr "k1")) as Hdoc
    by (vm_compute; reflexivity).
  split; [done |].
  exact (post_booking_duplicate_id "Error adding booking" env0 post_duplicate
           db_keyed (VStr "k1") booking_keyed Hup Hbody Harr Hin Hdoc).
Defined.

Lemma only_booking_writes_change_store_witness :
  (addresses POST (api_v1 [Lit "booking"]) login0 = false
   /\ addresses DELETE (api_v1 [Lit "booking"; Param "id"]) login0 = false)
  /\ snd (dispatch (index_js ideal_hmac sum0 operators0 hex24) env0 login0 db0)
     = db0.
Proof.
  assert (addresses POST (api_v1 [Lit "booking"]) login0 = false) as Hpost
    by (vm_compute; reflexivity).
  assert (addresses DELETE (api_v1 [Lit "booking"; Param "id"]) login0 = false)
    as Hdelete by (vm_compute; reflexivity).
  split; [done |].
  exact (only_booking_writes_change_store ideal_hmac sum0 operators0 hex24
           env0 login0 db0 Hpost Hdelete).
Defined.

Lemma dispatch_preserves_wf_witness :
  (wf_collection (servicesCollection db0)
   /\ wf_collection (bookingCollection db0))
  /\ wf_collection
       (bookingCollection
          (snd (dispatch (index_js ideal_hmac sum0 operators0 hex24) env0 post0 db0)))
  /\ bookingCollection
       (snd (dispatch (index_js ideal_hmac sum0 operators0 hex24) env0 post0 db0))
     = [booking1; booking2; booking_stored].
Proof.
  destruct db0_wf as [Hs Hb]. split; [done |]. split.
  - apply (dispatch_preserves_wf ideal_hmac sum0 operators0 hex24 env0 post0 db0 Hs Hb).
  - vm_compute. reflexivity.
Defined.

Lemma services_are_listed_witness :
  (req_method (request0 GET services_path) = GET
   /\ req_path (request0 GET services_path) = ["api"; "v1"; "services"]
   /\ outage db0 = None)
  /\ dispatch (index_js ideal_hmac sum0 operators0 hex24) env0
       (request0 GET services_path) db0
     = (Responded (send 200 (SendArray [service5])), db0).
Proof.
  split; [done |].
  apply (services_are_listed ideal_hmac sum0 operators0 hex24 env0
           (request0 GET services_path)
           db0); reflexivity.
Defined.

Lemma no_update_route_witness :
  (req_method (request0 PUT ["api"; "v1"; "booking"; id_booking2]) = PUT
   \/ req_method (request0 PUT ["api"; "v1"; "booking"; id_booking2]) = PATCH)
  /\ dispatch (index_js ideal_hmac sum0 operators0 hex24) env0
       (request0 PUT ["api"; "v1"; "booking"; id_booking2]) db0
     = (Unrouted, db0).
Proof.
  split; [by left |].
  apply (no_update_route ideal_hmac sum0 operators0 hex24 env0
           (request0 PUT ["api"; "v1"; "booking"; id_booking2]) db0).
  by left.
Defined.

Lemma part_000_without_delete_and_token_witness :
  (req_method (request0 DELETE ["api"; "v1"; "booking"; id_booking2]) = DELETE
   /\ req_path login0 = ["jwt-auth"])
  /\ dispatch (@part_000 ideal_tag operators0 hex24) env0
       (request0 DELETE ["api"; "v1"; "booking"; id_booking2]) db0
     = (Unrouted, db0)
  /\ dispatch (@part_000 ideal_tag operators0 hex24) env0 login0 db0 = (Unrouted, db0).
Proof.
  split; [done |]. split.
  - apply (part_000_without_delete_and_token operators0 hex24). by left.
  - apply (part_000_without_delete_and_token operators0 hex24). by right.
Defined.

